(** * SimSwap: the CSV -> graph -> HTML pipeline of [SimSwap.py]

    A shallow embedding of the module [SimSwap.py]: the class [SimSwap] with
    its three methods [read_csv], [build_nx] and [build_bokeh], and the
    module's top-level [try]/[except] block.

    The module drives three libraries.  Their behaviour, as far as the module
    depends on it, is embedded next to the code that calls them:
    - pandas: [read_csv] with [usecols], positional access [iat], by-name
      column lookup [get_loc] and column assignment;
    - networkx: [Graph] (the class [from_pandas_edgelist] builds when no
      [create_using] is given), [add_edge], [nodes], [edges(data=True)];
    - bokeh: the data sources filled by [from_networkx], [linear_cmap] and
      the colour look-up of the linear colour mapper.
    The node coordinates computed by [nx.spring_layout] are floating-point
    numbers drawn from a random start; they are not part of this model. *)

From Stdlib Require Import ZArith QArith String Ascii List Lia DecimalString.
From Stdlib Require Import SetoidList SetoidPermutation.
From stdpp Require Import base option list strings gmap.

Local Open Scope Z_scope.
Local Open Scope string_scope.
Local Open Scope list_scope.

(** ** Python values held in table cells *)

(** A pandas [Timestamp], by its calendar fields (whole seconds, no zone). *)
Record Timestamp := mkTimestamp {
  year : nat; month : nat; day : nat;
  hour : nat; minute : nat; second : nat
}.

(** A cell of the loaded table: an integer, a string, or a parsed date. *)
Inductive value :=
| VInt (z : Z)
| VStr (s : string)
| VTime (t : Timestamp).

#[global] Instance Timestamp_eq_dec : EqDecision Timestamp.
Proof. solve_decision. Defined.

#[global] Instance value_eq_dec : EqDecision value.
Proof. solve_decision. Defined.

(** Lexicographic order on the calendar fields: the order of the instants. *)
Fixpoint lex_ltb (a b : list nat) : bool :=
  match a, b with
  | x :: a', y :: b' => if (x <? y)%nat then true
                        else if (y <? x)%nat then false else lex_ltb a' b'
  | _, _ => false
  end.

Definition Timestamp_fields (t : Timestamp) : list nat :=
  [year t; month t; day t; hour t; minute t; second t].

Definition Timestamp_ltb (a b : Timestamp) : bool :=
  lex_ltb (Timestamp_fields a) (Timestamp_fields b).

(** [str] of a Python [int]: its decimal digits, with a sign when negative. *)
Definition int_str (z : Z) : string := NilZero.string_of_int (Z.to_int z).

(** Decimal digits of [n], left-padded with zeros to [width]. *)
Fixpoint zeros (k : nat) : string :=
  match k with O => "" | S k' => String "0" (zeros k') end.

Definition zfill (width : nat) (n : nat) : string :=
  let s := int_str (Z.of_nat n) in zeros (width - String.length s) +:+ s.

(** [str(Timestamp)]: [YYYY-MM-DD HH:MM:SS]. *)
Definition Timestamp_str (t : Timestamp) : string :=
  zfill 4 (year t) +:+ "-" +:+ zfill 2 (month t) +:+ "-" +:+ zfill 2 (day t) +:+ " " +:+
  zfill 2 (hour t) +:+ ":" +:+ zfill 2 (minute t) +:+ ":" +:+ zfill 2 (second t).

(** Python's [str(x)]. *)
Definition py_str (x : value) : string :=
  match x with
  | VInt z => int_str z
  | VStr s => s
  | VTime t => Timestamp_str t
  end.

(** Python's [repr(x)].  Strings are quoted without escapes, which is exact
    for strings free of quotes, backslashes and control characters (all the
    column names of this module are). *)
Definition py_repr (x : value) : string :=
  match x with
  | VInt z => int_str z
  | VStr s => "'" +:+ s +:+ "'"
  | VTime t => "Timestamp('" +:+ Timestamp_str t +:+ "')"
  end.

(** ** Exceptions and the two monads *)

Inductive exn :=
| FileNotFoundError (filename : string)
| KeyError (key : value)
| TypeError
| IndexError
| ParserError.

(** [str(e)], as the top level prints it. *)
Definition exn_str (e : exn) : string :=
  match e with
  | FileNotFoundError f => "[Errno 2] No such file or directory: " +:+ py_repr (VStr f)
  | KeyError k => py_repr k
  | TypeError => "TypeError"
  | IndexError => "IndexError"
  | ParserError => "ParserError"
  end.

(** Computations that may raise but touch neither files nor the console. *)
Definition result (A : Type) : Type := exn + A.

Definition rbind {A B} (m : result A) (f : A -> result B) : result B :=
  match m with inl e => inl e | inr a => f a end.

Notation "'let?' x ':=' m 'in' k" := (rbind m (fun x => k))
  (at level 10, x name, m at level 100, k at level 200).

Definition of_option {A} (e : exn) (o : option A) : result A :=
  match o with Some a => inr a | None => inl e end.

(** [[f(x) for x in l]], stopping at the first exception. *)
Fixpoint rmap {A B} (f : A -> result B) (l : list A) : result (list B) :=
  match l with
  | [] => inr []
  | x :: l' => let? y := f x in let? ys := rmap f l' in inr (y :: ys)
  end.

(** [for x in l: acc = f(acc, x)], stopping at the first exception. *)
Fixpoint rfold {A S} (f : S -> A -> result S) (acc : S) (l : list A) : result S :=
  match l with
  | [] => inr acc
  | x :: l' => let? acc' := f acc x in rfold f acc' l'
  end.

(** Python's [a < b].  Values of different types do not compare. *)
Definition py_lt (a b : value) : result bool :=
  match a, b with
  | VInt x, VInt y => inr (Z.ltb x y)
  | VStr x, VStr y => inr (String.ltb x y)
  | VTime x, VTime y => inr (Timestamp_ltb x y)
  | _, _ => inl TypeError
  end.

(** ** pandas: the table *)

(** A delimited text file as the tokenizer sees it: the header names and the
    data rows, each row with its typed fields in file order. *)
Record csv := mkCsv {
  header : list string;
  records : list (list value)
}.

Record DataFrame := mkDataFrame {
  columns : list string;
  values : list (list value)
}.

(** [len(data.index)] *)
Definition len_index (data : DataFrame) : nat := length (values data).

(** [data.iat[i, j]] *)
Definition iat (data : DataFrame) (i j : nat) : result value :=
  of_option IndexError (values data !! i ≫= fun row => row !! j).

Fixpoint index_of (name : string) (names : list string) : option nat :=
  match names with
  | [] => None
  | n :: names' => if decide (n = name) then Some O else S <$> index_of name names'
  end.

(** [df.columns.get_loc(name)] *)
Definition get_loc (data : DataFrame) (name : string) : result nat :=
  of_option (KeyError (VStr name)) (index_of name (columns data)).

(** [data[name] = col]: overwrite the column when the name exists, append it
    otherwise.  [col] has one entry per row at the only call. *)
Definition setitem (data : DataFrame) (name : string) (col : list value) : DataFrame :=
  match index_of name (columns data) with
  | Some j => {| columns := columns data;
                 values := zip_with (fun row v => <[j:=v]> row) (values data) col |}
  | None => {| columns := columns data ++ [name];
               values := zip_with (fun row v => row ++ [v]) (values data) col |}
  end.

(** [usecols=[4, 5, 6, 7, 9, 10, 11, 12, 13]] *)
Definition usecols : list nat := [4; 5; 6; 7; 9; 10; 11; 12; 13]%nat.

Definition take_cols {A} (l : list A) : result (list A) :=
  rmap (fun j => of_option ParserError (l !! j)) usecols.

(** [pd.read_csv(..., sep=';', usecols=..., parse_dates=[0, 2])] on the
    content of an existing file: the selected positions of the header and of
    every row.  A table without one of the positions is a parser error. *)
Definition pd_read_csv (t : csv) : result DataFrame :=
  let? cols := take_cols (header t) in
  let? rows := rmap take_cols (records t) in
  inr {| columns := cols; values := rows |}.

(** ** networkx: the class [Graph] *)

(** A Python [dict] keyed by table values, in insertion order. *)
Section pydict.
Context {V : Type}.

Fixpoint dict_get (k : value) (d : list (value * V)) : option V :=
  match d with
  | [] => None
  | (k', v) :: d' => if decide (k' = k) then Some v else dict_get k d'
  end.

(** [d[k]] *)
Definition dict_getitem (k : value) (d : list (value * V)) : result V :=
  of_option (KeyError k) (dict_get k d).

(** [d[k] = v]: an existing key keeps its place, a new key goes last. *)
Fixpoint dict_set (k : value) (v : V) (d : list (value * V)) : list (value * V) :=
  match d with
  | [] => [(k, v)]
  | (k', v') :: d' => if decide (k' = k) then (k', v) :: d'
                      else (k', v') :: dict_set k v d'
  end.

Definition dict_keys (d : list (value * V)) : list value := d.*1.
End pydict.

(** An edge's attribute dictionary: attribute name to value. *)
Abbreviation attrs := (gmap string value).

(** [d.update(items)] *)
Definition dict_update (items : list (string * value)) (d : attrs) : attrs :=
  foldl (fun d kv => <[kv.1 := kv.2]> d) d items.

(** [nx.Graph]: an undirected graph without parallel edges.  [adj] is the
    dict-of-dicts [_adj]: node, then neighbour, then the edge's attribute
    dictionary.  One dictionary object serves both directions of an edge, so
    [adj] holds references into [datadicts], the dictionaries allocated so
    far.  The node dictionary [_node] receives its keys together with [_adj]
    and in the same order; [nodes] reads them off [adj]. *)
Record Graph := mkGraph {
  adj : list (value * list (value * nat));
  datadicts : list attrs
}.

Definition empty_graph : Graph := {| adj := []; datadicts := [] |}.

(** [if u not in self._node: self._adj[u] = {}; self._node[u] = {}] *)
Definition add_node_if_new (u : value) (a : list (value * list (value * nat)))
  : list (value * list (value * nat)) :=
  match dict_get u a with
  | Some _ => a
  | None => dict_set u [] a
  end.

(** [self._adj[u][v] = r] *)
Definition adj_set (u v : value) (r : nat) (a : list (value * list (value * nat)))
  : result (list (value * list (value * nat))) :=
  let? nbrs := dict_getitem u a in
  inr (dict_set u (dict_set v r nbrs) a).

(** [Graph.add_edge(u, v)] without keyword attributes. *)
Definition add_edge (u v : value) (g : Graph) : result Graph :=
  let a := add_node_if_new v (add_node_if_new u (adj g)) in
  let? nbrs := dict_getitem u a in
  (* datadict = self._adj[u].get(v, {}) *)
  let '(r, dd) := match dict_get v nbrs with
                  | Some r => (r, datadicts g)
                  | None => (length (datadicts g), datadicts g ++ [∅])
                  end in
  let? a := adj_set u v r a in
  let? a := adj_set v u r a in
  inr {| adj := a; datadicts := dd |}.

(** [g[s][t].update(items)] *)
Definition edge_update (s t : value) (items : list (string * value)) (g : Graph)
  : result Graph :=
  let? nbrs := dict_getitem s (adj g) in
  let? r := dict_getitem t nbrs in
  inr {| adj := adj g; datadicts := alter (dict_update items) r (datadicts g) |}.

(** [list(g.nodes())] *)
Definition nodes (g : Graph) : list value := dict_keys (adj g).

(** The iteration of [g.edges(data=True)]: every node in order, every
    neighbour of it in order, skipping the neighbours already visited as
    nodes ([seen]). *)
Fixpoint edges_from (seen : list value) (a : list (value * list (value * nat)))
  : list (value * value * nat) :=
  match a with
  | [] => []
  | (n, nbrs) :: a' =>
      ((fun e => (n, e.1, e.2)) <$> filter (fun e => e.1 ∉ seen) nbrs)
      ++ edges_from (seen ++ [n]) a'
  end.

(** The dictionary behind a reference.  Every reference [add_edge] stores is
    allocated ([inv_data] below), so the default is never taken. *)
Definition deref (g : Graph) (r : nat) : attrs := default ∅ (datadicts g !! r).

(** [list(g.edges(data=True))] *)
Definition edges (g : Graph) : list (value * value * attrs) :=
  (fun e => (e.1.1, e.1.2, deref g e.2)) <$> edges_from [] (adj g).

(** [row[j]] on a row of [df.values] *)
Definition row_get (row : list value) (j : nat) : result value :=
  of_option IndexError (row !! j).

(** The body of the loop of [from_pandas_edgelist] for a simple graph:
    [g.add_edge(s, t); g[s][t].update((i, row[j]) for i, j in edge_i)]. *)
Definition add_row (src_i tar_i : nat) (edge_i : list (string * nat))
    (g : Graph) (row : list value) : result Graph :=
  let? s := row_get row src_i in
  let? t := row_get row tar_i in
  let? g := add_edge s t g in
  let? items := rmap (fun ij => let? x := row_get row ij.2 in inr (ij.1, x)) edge_i in
  edge_update s t items g.

(** [nx.from_pandas_edgelist(df, source, target, edge_attr)] with a tuple of
    attribute names and the default [create_using], a simple [nx.Graph].
    The positions of the source column, of the target column and of every
    attribute column are looked up by name with [get_loc] before the first
    row is read; then the rows are added in order. *)
Definition from_pandas_edgelist (df : DataFrame) (source target : string)
    (edge_attr : list string) : result Graph :=
  let? src_i := get_loc df source in
  let? tar_i := get_loc df target in
  let? edge_i := rmap (fun i => let? j := get_loc df i in inr (i, j)) edge_attr in
  rfold (add_row src_i tar_i edge_i) empty_graph (values df).

(** ** bokeh: what the module puts into the document *)

(** [linear_cmap(field_name, palette, low, high)]: colour a glyph by a column
    of its data source through a linear colour mapper. *)
Record linear_cmap := mk_linear_cmap {
  field_name : string;
  palette : list string;
  low : Z;
  high : Z
}.

(** The colour the linear colour mapper gives to the number [d]: [high]
    itself takes the last colour; any other value takes the colour of its
    interval, the range from [low] to [high] being cut into as many equal
    intervals as the palette has colours, and values outside take the
    nearest end.  The browser computes the interval in floating point; the
    quotient is taken exactly here, which agrees for the integer columns and
    the scales of this module.  *)
Definition linear_color (m : linear_cmap) (d : Z) : string :=
  let n := Z.of_nat (length (palette m)) in
  let max_key := n - 1 in
  let pick (key : Z) := nth (Z.to_nat key) (palette m) "" in
  if Z.eqb d (high m) then pick max_key
  else
    let key := ((d - low m) * n) / (high m - low m) in
    if Z.ltb key 0 then pick 0
    else if Z.ltb max_key key then pick max_key
    else pick key.

(** The colour of a data-source entry.  The mapper is embedded on integers,
    the only values the module stores in a mapped column. *)
Definition mapped_color (m : linear_cmap) (x : option value) : option string :=
  match x with
  | Some (VInt d) => Some (linear_color m d)
  | _ => None
  end.

Record Circle := mkCircle {
  size : nat;
  fill_color : linear_cmap;
  fill_alpha : Q;
  circle_line_color : option linear_cmap   (* [None]: not given *)
}.

Record MultiLine := mkMultiLine {
  line_color : linear_cmap;
  line_alpha : option Q;                   (* [None]: not given *)
  line_width : nat
}.

Inductive Tool :=
| HoverTool (tooltips : list (string * string))
| TapTool
| PanTool
| WheelZoomTool.

Inductive Policy := NodesOnly | EdgesAndLinkedNodes.

(** [node_renderer.data_source.data] *)
Record NodeSource := mkNodeSource {
  index : list value;
  node_colors : list Z
}.

(** [edge_renderer.data_source.data]; [end_] is the column [end]. *)
Record EdgeSource := mkEdgeSource {
  start : list value;
  end_ : list value;
  rmsisdn : list (option value);
  rname : list (option value);
  crmsisdn : list (option value);
  crname : list (option value);
  batime : list (option value)
}.

Record GraphRenderer := mkGraphRenderer {
  node_source : NodeSource;
  edge_source : EdgeSource;
  node_glyph : Circle;
  node_selection_glyph : Circle;
  node_hover_glyph : Circle;
  edge_glyph : MultiLine;
  edge_selection_glyph : MultiLine;
  edge_hover_glyph : MultiLine;
  selection_policy : Policy;
  inspection_policy : Policy
}.

Record Plot := mkPlot {
  plot_width : nat;
  plot_height : nat;
  x_range : Q * Q;
  y_range : Q * Q;
  title_text : string;
  tools : list Tool;
  renderers : list GraphRenderer
}.

(** ** Files, console and the monad of the methods *)

Inductive file :=
| Csv (t : csv)
| Html (doc : Plot).

Record world := mkWorld {
  stdout : list string;            (* lines printed so far, oldest first *)
  fs : gmap string file            (* the files, by path *)
}.

Definition M (A : Type) : Type := world -> result A * world.

Definition ret {A} (a : A) : M A := fun w => (inr a, w).

Definition raise {A} (e : exn) : M A := fun w => (inl e, w).

Definition bind {A B} (m : M A) (f : A -> M B) : M B :=
  fun w => match m w with
           | (inl e, w') => (inl e, w')
           | (inr a, w') => f a w'
           end.

Notation "'let!' x ':=' m 'in' k" := (bind m (fun x => k))
  (at level 10, x name, m at level 100, k at level 200).

Definition lift {A} (r : result A) : M A := fun w => (r, w).

(** [print(line)] *)
Definition print (line : string) : M unit :=
  fun w => (inr tt, {| stdout := stdout w ++ [line]; fs := fs w |}).

(** [try: body except ...: handler].  [handler e] is [None] when no
    [except] clause names the class of [e]. *)
Definition try_except {A} (body : M A) (handler : exn -> option (M A)) : M A :=
  fun w => match body w with
           | (inl e, w') => match handler e with
                            | Some h => h w'
                            | None => (inl e, w')
                            end
           | (inr a, w') => (inr a, w')
           end.

(** Opening [path] for reading and parsing it. *)
Definition open_read_csv (path : string) : M DataFrame :=
  fun w => match fs w !! path with
           | None => (inl (FileNotFoundError path), w)
           | Some (Csv t) => (pd_read_csv t, w)
           | Some (Html _) => (inl ParserError, w)
           end.

(** [output_file(path); save(doc)] *)
Definition save (path : string) (doc : Plot) : M unit :=
  fun w => (inr tt, {| stdout := stdout w; fs := <[path := Html doc]> (fs w) |}).

(** ** The class [SimSwap] *)

Record SimSwap := mkSimSwap { file_name : string }.

(** One entry of the list comprehension of [read_csv]:
    [0 if data.iat[i, 0] < data.iat[i, 2] else 1]. *)
Definition TIME_entry (data : DataFrame) (i : nat) : result value :=
  let? a := iat data i 0 in
  let? b := iat data i 2 in
  let? before := py_lt a b in
  inr (VInt (if before then 0 else 1)).

Definition read_csv (self : SimSwap) : M DataFrame :=
  try_except
    (let! data := open_read_csv (file_name self) in
     let! TIME := lift (rmap (TIME_entry data) (seq 0 (len_index data))) in
     ret (setitem data "TIME" TIME))
    (fun e => match e with
              | FileNotFoundError _ =>
                  Some (let! _ := print "CSV file not found." in raise e)
              | _ => None
              end).

Definition edge_attr : list string :=
  ["PIN RESET MSISDN"; "DEBIT PARTY"; "CREDIT PARTY";
   "CREDIT PARTY SHORTCODE/MSISDN"; "TIME";
   "TRANSACTION TIME"; "TRANSACTION ID";
   "TRANSACTION AMOUNT"; "TIME"].

Definition build_nx (self : SimSwap) : M Graph :=
  try_except
    (let! data := read_csv self in
     let! nx_graph :=
       lift (from_pandas_edgelist data "PIN RESET MSISDN" "CREDIT PARTY" edge_attr) in
     ret nx_graph)
    (fun e => match e with
              | KeyError _ =>
                  Some (let! _ := print "Incorrect CSV file heading." in raise e)
              | _ => None
              end).

(** The body of the loop over [nx_graph.nodes()]. *)
Definition node_color (r_msisdn : list (option value)) (i : value) : Z :=
  if (String.length (py_str i) <? 12)%nat then 0
  else if decide (Some i ∈ r_msisdn) then 1
  else 2.

Definition node_target_palette : list string := ["#808080"; "#B22222"; "#FFA07A"].
Definition target_palette : list string := ["mediumseagreen"; "firebrick"].

Definition hover : list (string * string) :=
  [("Reset No.", "@rmsisdn"); ("Reset Name", "@rname");
   ("Credit No.", "@crmsisdn"); ("Creditor Name", "@crname")].

(** The document [build_bokeh] assembles from the graph. *)
Definition bokeh_plot (nx_graph : Graph) : Plot :=
  let atts := (fun e => e.2) <$> edges nx_graph in
  let r_msisdn := (fun i : attrs => i !! "PIN RESET MSISDN") <$> atts in
  let r_name := (fun i : attrs => i !! "DEBIT PARTY") <$> atts in
  let cr_msisdn := (fun i : attrs => i !! "CREDIT PARTY") <$> atts in
  let cr_name := (fun i : attrs => i !! "CREDIT PARTY SHORTCODE/MSISDN") <$> atts in
  let ba_time := (fun i : attrs => i !! "TIME") <$> atts in
  let node_color_list := node_color r_msisdn <$> nodes nx_graph in
  let node_colors :=
    {| field_name := "node_colors"; palette := node_target_palette;
       low := 0; high := 2 |} in
  let edge_colors :=
    {| field_name := "batime"; palette := target_palette;
       low := 1; high := 0 |} in
  (* from_networkx(nx_graph, nx.spring_layout, scale=1, center=(0, 0)) and
     the columns assigned afterwards *)
  let graph_renderer :=
    {| node_source := {| index := nodes nx_graph; node_colors := node_color_list |};
       edge_source := {| start := (fun e => e.1.1) <$> edges nx_graph;
                         end_ := (fun e => e.1.2) <$> edges nx_graph;
                         rmsisdn := r_msisdn; rname := r_name;
                         crmsisdn := cr_msisdn; crname := cr_name;
                         batime := ba_time |};
       node_glyph := {| size := 7; fill_color := node_colors; fill_alpha := 1;
                        circle_line_color := Some node_colors |};
       node_selection_glyph := {| size := 10; fill_color := node_colors;
                                  fill_alpha := 1; circle_line_color := None |};
       node_hover_glyph := {| size := 15; fill_color := node_colors;
                              fill_alpha := 1; circle_line_color := None |};
       edge_glyph := {| line_color := edge_colors; line_alpha := Some (1 # 2)%Q;
                        line_width := 3 |};
       edge_selection_glyph := {| line_color := edge_colors; line_alpha := None;
                                  line_width := 5 |};
       edge_hover_glyph := {| line_color := edge_colors; line_alpha := None;
                              line_width := 5 |};
       selection_policy := EdgesAndLinkedNodes;
       inspection_policy := EdgesAndLinkedNodes |} in
  {| plot_width := 800; plot_height := 800;
     x_range := ((-11 # 10)%Q, (11 # 10)%Q);
     y_range := ((-11 # 10)%Q, (11 # 10)%Q);
     title_text := "Tanzania SIM Swaps & PIN Resets 21-28 August 2018";
     tools := [HoverTool hover; TapTool; PanTool; WheelZoomTool];
     renderers := [graph_renderer] |}.

Definition build_bokeh (self : SimSwap) : M unit :=
  let! nx_graph := build_nx self in
  save "TZ_SimSwap_Network.html" (bokeh_plot nx_graph).

(** The module's top level, for the path it passes to [SimSwap]. *)
Definition top_level (path : string) : M unit :=
  try_except
    (let s := {| file_name := path |} in build_bokeh s)
    (fun e => match e with
              | TypeError =>
                  Some (let! _ := print "SimSwap() must take csv file path as a string" in
                        raise e)
              | FileNotFoundError _ => Some (print (exn_str e))
              | KeyError _ => Some (print ("Key: " +:+ exn_str e))
              | _ => None
              end).

Definition main : M unit :=
  top_level "/Users/alex/PycharmProjects/NodeNetworks/csv_files/TZ_28_Aug.csv".

(** The colour in which the renderer draws its [k]-th edge (normal glyph). *)
Definition edge_color (r : GraphRenderer) (k : nat) : option string :=
  batime (edge_source r) !! k ≫= fun x => mapped_color (line_color (edge_glyph r)) x.

(** ** Notions used to state the properties *)

(** [a[x][y]], when both keys are present. *)
Definition adj_get (a : list (value * list (value * nat))) (x y : value) : option nat :=
  dict_get x a ≫= dict_get y.

(** Two pairs of accounts that are the same undirected edge. *)
Definition same_edge (p q : value * value) : Prop := p = q \/ p = (q.2, q.1).

#[global] Instance same_edge_dec : RelDecision same_edge.
Proof. intros p q. unfold same_edge. apply _. Defined.

(** The keys and the neighbour keys of an adjacency are free of repeats. *)
Definition adj_wf (a : list (value * list (value * nat))) : Prop :=
  NoDup (dict_keys a) /\
  forall n nbrs, dict_get n a = Some nbrs -> NoDup (dict_keys nbrs).

(** What one turn of the loop of [from_pandas_edgelist] does to the graph:
    the two endpoints and the attribute items of the row. *)
Definition request : Type := value * value * list (string * value).

Definition add_request (g : Graph) (q : request) : result Graph :=
  let? g := add_edge q.1.1 q.1.2 g in
  edge_update q.1.1 q.1.2 q.2 g.

(** The attribute dictionary of the edge [p] after the requests [reqs]: the
    items of every request for that edge, applied in order. *)
Definition edge_dict (reqs : list request) (p : value * value) : attrs :=
  foldl (fun d q => if decide (same_edge p q.1) then dict_update q.2 d else d) ∅ reqs.

(** The distinct undirected edges of a list of pairs, each kept at its last
    occurrence. *)
Fixpoint dedup_edges (l : list (value * value)) : list (value * value) :=
  match l with
  | [] => []
  | p :: l' => if decide (Exists (same_edge p) l') then dedup_edges l'
               else p :: dedup_edges l'
  end.

(** The cell of [row] in the column called [name]. *)
Definition cell (data : DataFrame) (row : list value) (name : string) : option value :=
  index_of name (columns data) ≫= fun j => row !! j.

(** The reset account and the credited account of a row. *)
Definition endpoints_of (data : DataFrame) (row : list value) : option (value * value) :=
  s ← cell data row "PIN RESET MSISDN";
  t ← cell data row "CREDIT PARTY";
  Some (s, t).

Definition endpoints (data : DataFrame) : list (value * value) :=
  omap (endpoints_of data) (values data).

(** The attribute items [from_pandas_edgelist] takes from a row. *)
Definition row_items (data : DataFrame) (row : list value) : option (list (string * value)) :=
  mapM (fun name => pair name <$> cell data row name) edge_attr.

Definition row_request (data : DataFrame) (row : list value) : option request :=
  p ← endpoints_of data row;
  items ← row_items data row;
  Some (p, items).

Definition requests (data : DataFrame) : list request :=
  omap (row_request data) (values data).

(** Every row has one cell per column. *)
Definition rectangular (data : DataFrame) : Prop :=
  forall row, row ∈ values data -> length row = length (columns data).

(** The first date is earlier than the second, or the two coincide. *)
Definition Timestamp_leb (a b : Timestamp) : bool := negb (Timestamp_ltb b a).

(** [row] is the last row of [data] between its two accounts. *)
Definition last_of_pair (data : DataFrame) (row : list value) : Prop :=
  exists rows1 rows2 p,
    values data = rows1 ++ row :: rows2 /\
    endpoints_of data row = Some p /\
    forall row' p', row' ∈ rows2 -> endpoints_of data row' = Some p' -> ~ same_edge p p'.

(** The graph after the requests [reqs]: the adjacency is symmetric, its
    nodes and edges are those the requests name, an attribute dictionary is
    shared by the two directions of one edge only, and it holds what the
    requests for that edge wrote. *)
Record graph_inv (reqs : list request) (g : Graph) : Prop := mk_graph_inv {
  inv_wf : adj_wf (adj g);
  inv_sym : forall x y, adj_get (adj g) x y = adj_get (adj g) y x;
  inv_nodes : forall x,
    x ∈ nodes g <-> exists q, q ∈ reqs /\ (x = q.1.1 \/ x = q.1.2);
  inv_edges : forall x y,
    is_Some (adj_get (adj g) x y) <-> exists q, q ∈ reqs /\ same_edge (x, y) q.1;
  inv_inj : forall x y x' y' r,
    adj_get (adj g) x y = Some r -> adj_get (adj g) x' y' = Some r ->
    same_edge (x, y) (x', y');
  inv_data : forall x y r,
    adj_get (adj g) x y = Some r -> datadicts g !! r = Some (edge_dict reqs (x, y))
}.

(** ** Valid input files *)

Definition is_inr {A B} (x : A + B) : bool :=
  match x with inr _ => true | inl _ => false end.

(** A row the loader accepts: it has the selected positions, and its first
    and third selected cells compare. *)
Definition row_loadable (r : list value) : bool :=
  match take_cols r with
  | inr rr => match rr !! 0%nat, rr !! 2%nat with
              | Some d0, Some d2 => is_inr (py_lt d0 d2)
              | _, _ => false
              end
  | inl _ => false
  end.

(** A file the loader accepts. *)
Definition loadable (t : csv) : bool :=
  is_inr (take_cols (header t)) && forallb row_loadable (records t).

(** A valid input file: the loader accepts it and the selected part of its
    header has every column the graph builder names (relative-time, which
    the loader adds, apart). *)
Definition valid_file (t : csv) : bool :=
  loadable t &&
  match take_cols (header t) with
  | inr cols =>
      forallb (fun name => bool_decide (name ∈ cols) || bool_decide (name = "TIME"))
              edge_attr
  | inl _ => false
  end.

(** ** A sample file *)

(** A header of fourteen columns; the module reads positions 4-7 and 9-13. *)
Definition sample_header : list string :=
  ["ID"; "REGION"; "CHANNEL"; "AGENT";
   "PIN RESET TIME"; "PIN RESET MSISDN"; "SIM SWAP TIME"; "DEBIT PARTY";
   "STATUS";
   "CREDIT PARTY"; "CREDIT PARTY SHORTCODE/MSISDN"; "TRANSACTION TIME";
   "TRANSACTION ID"; "TRANSACTION AMOUNT"].

Definition aug2018 (d : nat) : Timestamp :=
  {| year := 2018; month := 8; day := d; hour := 0; minute := 0; second := 0 |}.

Definition sample_record (date1 : nat) (reset : value) (date2 : nat) (credit : value)
    (id : Z) : list value :=
  [VInt id; VStr "DSM"; VStr "USSD"; VStr "agent";
   VTime (aug2018 date1); reset; VTime (aug2018 date2); VStr "debit name";
   VStr "OK";
   credit; VStr "shortcode"; VStr "2018-08-28 10:00:00"; VInt id; VInt 5000].

Definition sample_path : string := "TZ_28_Aug.csv".

Definition sample_self : SimSwap := {| file_name := sample_path |}.

Definition sample_world (rows : list (list value)) : world :=
  {| stdout := [];
     fs := {[ sample_path := Csv {| header := sample_header; records := rows |} ]} |}.

Definition msisdn1 : value := VInt 255700000001.
Definition msisdn2 : value := VInt 255700000002.

(** Two accounts, two transactions, one per row. *)
Definition two_credits : world :=
  sample_world [sample_record 21 msisdn1 22 (VInt 1001) 1;
                sample_record 25 msisdn1 20 (VInt 1002) 2].

(** Two transactions between the same two accounts. *)
Definition same_pair_twice : world :=
  sample_world [sample_record 21 msisdn1 22 (VInt 1001) 1;
                sample_record 25 msisdn1 20 (VInt 1001) 2].

(** A transaction and its return: the accounts swap roles. *)
Definition there_and_back : world :=
  sample_world [sample_record 21 msisdn1 22 msisdn2 1;
                sample_record 25 msisdn2 26 msisdn1 2].

(** One transaction whose two dates coincide. *)
Definition same_day : world :=
  sample_world [sample_record 21 msisdn1 21 (VInt 1001) 1].


(** A file with the header and no data row. *)
Definition header_only : world := sample_world [].

(** A file whose second date was not parsed: a date beside a string. *)
Definition unparsed_date : world :=
  sample_world [<[6%nat := VStr "unknown"]> (sample_record 21 msisdn1 22 (VInt 1001) 1)].

(** A file whose selected columns already have one called [TIME]. *)
Definition with_TIME_column : world :=
  {| stdout := [];
     fs := {[ sample_path :=
                Csv {| header := <[11%nat := "TIME"]> sample_header;
                       records := [sample_record 21 msisdn1 22 (VInt 1001) 1] |} ]} |}.

(** The table and the graph of a world, when the methods return them. *)
Definition table_of (w : world) : DataFrame :=
  match (read_csv sample_self w).1 with
  | inr data => data
  | inl _ => {| columns := []; values := [] |}
  end.

Definition graph_of (w : world) : Graph :=
  match (build_nx sample_self w).1 with
  | inr g => g
  | inl _ => empty_graph
  end.

(** Row [i] of the loaded table of a world. *)
Definition loaded_row (w : world) (i : nat) : list value :=
  default [] (values (table_of w) !! i).

(** ** Notions used for the further properties *)

(** [l] with [x] added at the end unless it is there already. *)
Definition add_new (x : value) (l : list value) : list value :=
  if decide (x ∈ l) then l else l ++ [x].

(** The accounts of a list of (reset, credit) pairs, each at its first
    appearance, the reset account of a pair before its credit account. *)
Definition first_appearances (ps : list (value * value)) : list value :=
  foldl (fun acc p => add_new p.2 (add_new p.1 acc)) [] ps.

(** The colour in which the renderer fills its [k]-th node (normal glyph). *)
Definition node_fill_color (r : GraphRenderer) (k : nat) : option string :=
  node_colors (node_source r) !! k ≫= fun c =>
    Some (linear_color (fill_color (node_glyph r)) c).




(** * Properties *)

(** ** The result monad *)

Lemma rbind_inr {A B} (m : result A) (f : A -> result B) (b : B) :
  rbind m f = inr b -> exists a, m = inr a /\ f a = inr b.
Proof. destruct m as [e|a]; simpl; [discriminate | eauto]. Qed.

Lemma of_option_inr {A} (e : exn) (o : option A) (a : A) :
  of_option e o = inr a <-> o = Some a.
Proof. destruct o; simpl; split; congruence. Qed.

Ltac inv_result :=
  repeat match goal with
  | H : rbind _ _ = inr _ |- _ =>
      let x := fresh "x" in let Hx := fresh "Hx" in
      apply rbind_inr in H as (x & Hx & H)
  | H : of_option _ _ = inr _ |- _ => apply of_option_inr in H
  | H : inr _ = inr _ |- _ => injection H as H
  | H : inl _ = inr _ |- _ => discriminate H
  end.

Lemma rmap_inr_length {A B} (f : A -> result B) l ys :
  rmap f l = inr ys -> length ys = length l.
Proof.
  revert ys; induction l as [|x l IH]; intros ys H; simpl in H.
  - by inv_result; subst.
  - inv_result. subst. simpl. f_equal. eauto.
Qed.

Lemma rmap_inr_lookup {A B} (f : A -> result B) l ys i x :
  rmap f l = inr ys -> l !! i = Some x ->
  exists y, ys !! i = Some y /\ f x = inr y.
Proof.
  revert ys i; induction l as [|x' l IH]; intros ys i H Hi; [done|].
  simpl in H. inv_result. subst. destruct i as [|i]; simpl in *.
  - simplify_eq. eauto.
  - eauto.
Qed.




(** ** Python dictionaries *)

Section pydict_facts.
Context {V : Type}.
Implicit Types (d : list (value * V)) (k : value) (v : V).

Lemma dict_get_set k k' v d :
  dict_get k' (dict_set k v d) = if decide (k = k') then Some v else dict_get k' d.
Proof.
  induction d as [|[k0 v0] d IH]; simpl.
  - repeat case_decide; congruence.
  - repeat (case_decide; simpl); congruence.
Qed.

Lemma dict_get_keys k d : is_Some (dict_get k d) <-> k ∈ dict_keys d.
Proof.
  unfold dict_keys. induction d as [|[k0 v0] d IH]; csimpl.
  - split; [by intros [? ?] | by intros ?%elem_of_nil].
  - rewrite elem_of_cons. case_decide; subst.
    + split; eauto.
    + rewrite IH. naive_solver.
Qed.

Lemma dict_get_None_keys k d : dict_get k d = None <-> k ∉ dict_keys d.
Proof. rewrite <- dict_get_keys, eq_None_not_Some. done. Qed.

Lemma dict_keys_set k v d :
  dict_keys (dict_set k v d) =
    match dict_get k d with Some _ => dict_keys d | None => dict_keys d ++ [k] end.
Proof.
  unfold dict_keys. induction d as [|[k0 v0] d IH]; csimpl; [done|].
  case_decide; csimpl; [done|]. rewrite IH. by destruct (dict_get k d).
Qed.

Lemma dict_set_NoDup k v d :
  NoDup (dict_keys d) -> NoDup (dict_keys (dict_set k v d)).
Proof.
  intros Hd. rewrite dict_keys_set. destruct (dict_get k d) eqn:E; [done|].
  apply NoDup_app. split_and!; [done | | apply NoDup_singleton].
  intros x Hx ->%list_elem_of_singleton.
  by apply dict_get_None_keys in E.
Qed.

Lemma dict_get_elem k v d : dict_get k d = Some v -> (k, v) ∈ d.
Proof.
  induction d as [|[k0 v0] d IH]; simpl; [done|].
  case_decide; intros Hg; simplify_eq; [left | right; auto].
Qed.

Lemma dict_elem_get k v d : NoDup (dict_keys d) -> (k, v) ∈ d -> dict_get k d = Some v.
Proof.
  unfold dict_keys. induction d as [|[k0 v0] d IH]; csimpl.
  - by intros _ ?%elem_of_nil.
  - intros [Hk Hd]%NoDup_cons [H|H]%elem_of_cons; simplify_eq.
    + by rewrite decide_True.
    + rewrite decide_False; [auto|]. intros ->. apply Hk.
      apply list_elem_of_fmap. by exists (k, v).
Qed.

(** The first entry for a key splits the dictionary. *)
Lemma dict_get_split k v d :
  dict_get k d = Some v ->
  exists d1 d2, d = d1 ++ (k, v) :: d2 /\ k ∉ dict_keys d1.
Proof.
  unfold dict_keys. induction d as [|[k0 v0] d IH]; csimpl; [done|].
  case_decide; intros Hg; simplify_eq.
  - exists [], d. split; [done | apply not_elem_of_nil].
  - destruct (IH Hg) as (d1 & d2 & -> & Hk).
    exists ((k0, v0) :: d1), d2. split; [done|].
    simpl. rewrite not_elem_of_cons. done.
Qed.

Lemma dict_get_app k d1 d2 :
  k ∉ dict_keys d1 -> dict_get k (d1 ++ d2) = dict_get k d2.
Proof.
  unfold dict_keys. induction d1 as [|[k0 v0] d1 IH]; csimpl; [done|].
  rewrite not_elem_of_cons. intros [? ?]. by rewrite decide_False, IH.
Qed.
End pydict_facts.

(** ** The adjacency structure under [add_edge] *)

#[global] Instance same_edge_equiv : Equivalence same_edge.
Proof.
  split.
  - intros p. by left.
  - intros [a b] [c d] [H|H]; simpl in *; simplify_eq; [by left | by right].
  - intros [a b] [c d] [e f] [H1|H1] [H2|H2]; simpl in *; simplify_eq;
      unfold same_edge; simpl; auto.
Qed.

Lemma same_edge_swap x y : same_edge (x, y) (y, x).
Proof. by right. Qed.

Lemma same_edge_pair x y u v :
  same_edge (x, y) (u, v) <-> (x = u /\ y = v) \/ (x = v /\ y = u).
Proof. unfold same_edge; simpl. naive_solver. Qed.

Implicit Types (a : list (value * list (value * nat))) (nbrs : list (value * nat)).

Lemma adj_get_add_node u a x y : adj_get (add_node_if_new u a) x y = adj_get a x y.
Proof.
  unfold adj_get, add_node_if_new. destruct (dict_get u a) eqn:E; [done|].
  rewrite dict_get_set. case_decide; [subst; by rewrite E | done].
Qed.

Lemma dict_get_add_node u a x :
  is_Some (dict_get x (add_node_if_new u a)) <-> x = u \/ is_Some (dict_get x a).
Proof.
  unfold add_node_if_new. destruct (dict_get u a) eqn:E.
  - split; [auto|]. intros [->|?]; [by rewrite E | done].
  - rewrite dict_get_set. case_decide; subst; naive_solver.
Qed.

Lemma add_node_wf u a : adj_wf a -> adj_wf (add_node_if_new u a).
Proof.
  intros [Hk Hn]. unfold add_node_if_new.
  destruct (dict_get u a) eqn:E; [done|]. split.
  - by apply dict_set_NoDup.
  - intros n nbrs. rewrite dict_get_set. case_decide; [|by eauto].
    intros [= <-]. apply NoDup_nil_2.
Qed.

Lemma adj_set_inr u v r a nbrs :
  dict_get u a = Some nbrs -> adj_set u v r a = inr (dict_set u (dict_set v r nbrs) a).
Proof. intros H. unfold adj_set, dict_getitem. by rewrite H. Qed.

Lemma adj_get_set u v r a nbrs x y :
  dict_get u a = Some nbrs ->
  adj_get (dict_set u (dict_set v r nbrs) a) x y =
    if decide (x = u /\ y = v) then Some r else adj_get a x y.
Proof.
  intros H. unfold adj_get. rewrite dict_get_set.
  destruct (decide (u = x)) as [->|Hne]; simpl.
  - rewrite dict_get_set, H. simpl. repeat case_decide; naive_solver.
  - rewrite decide_False by naive_solver. done.
Qed.

Lemma adj_set_wf u v r a nbrs :
  dict_get u a = Some nbrs -> adj_wf a -> adj_wf (dict_set u (dict_set v r nbrs) a).
Proof.
  intros H [Hk Hn]. split.
  - by apply dict_set_NoDup.
  - intros n nbrs'. rewrite dict_get_set. case_decide; [|by eauto].
    intros [= <-]. apply dict_set_NoDup. eauto.
Qed.

Lemma dict_get_adj_set u v r a nbrs x :
  dict_get u a = Some nbrs ->
  is_Some (dict_get x (dict_set u (dict_set v r nbrs) a)) <-> is_Some (dict_get x a).
Proof.
  intros H. rewrite dict_get_set. case_decide; [subst; rewrite H|]; naive_solver.
Qed.

Lemma add_edge_spec u v g :
  adj_wf (adj g) ->
  exists g' r,
    add_edge u v g = inr g' /\ adj_wf (adj g') /\
    (forall x y, adj_get (adj g') x y =
       if decide (same_edge (x, y) (u, v)) then Some r else adj_get (adj g) x y) /\
    (forall x, x ∈ nodes g' <-> x ∈ nodes g \/ x = u \/ x = v) /\
    ((adj_get (adj g) u v = Some r /\ datadicts g' = datadicts g) \/
     (adj_get (adj g) u v = None /\ r = length (datadicts g) /\
      datadicts g' = datadicts g ++ [∅])).
Proof.
  intros Hwf. unfold add_edge.
  set (a2 := add_node_if_new v (add_node_if_new u (adj g))).
  assert (Hwf2 : adj_wf a2) by (by do 2 apply add_node_wf).
  assert (Hu : is_Some (dict_get u a2)).
  { apply dict_get_add_node. right. apply dict_get_add_node. by left. }
  assert (Hv : is_Some (dict_get v a2)) by (apply dict_get_add_node; by left).
  destruct Hu as [nbrs Hu]. unfold dict_getitem at 1. rewrite Hu. simpl.
  assert (Hr : dict_get v nbrs = adj_get (adj g) u v).
  { rewrite <- (adj_get_add_node u), <- (adj_get_add_node v).
    unfold adj_get. fold a2. by rewrite Hu. }
  set (rd := match dict_get v nbrs with
             | Some r => (r, datadicts g)
             | None => (length (datadicts g), datadicts g ++ [∅])
             end).
  destruct rd as [r dd] eqn:Erd.
  rewrite (adj_set_inr _ _ _ _ _ Hu). simpl.
  set (a3 := dict_set u (dict_set v r nbrs) a2).
  assert (Hwf3 : adj_wf a3) by (by apply adj_set_wf).
  assert (Hv3 : is_Some (dict_get v a3)) by (by apply dict_get_adj_set).
  destruct Hv3 as [nbrs' Hv3].
  rewrite (adj_set_inr _ _ _ _ _ Hv3). simpl.
  eexists _, r. split; [done|]. simpl. split_and!.
  - by apply adj_set_wf.
  - intros x y. rewrite (adj_get_set _ _ _ _ _ _ _ Hv3).
    unfold a3. rewrite (adj_get_set _ _ _ _ _ _ _ Hu).
    unfold a2. rewrite !adj_get_add_node.
    destruct (decide (same_edge (x, y) (u, v))) as [Hs|Hs];
      rewrite same_edge_pair in Hs; repeat case_decide; naive_solver.
  - intros x. unfold nodes. simpl. rewrite <- !dict_get_keys.
    rewrite (dict_get_adj_set _ _ _ _ _ _ Hv3).
    unfold a3. rewrite (dict_get_adj_set _ _ _ _ _ _ Hu).
    unfold a2. rewrite !dict_get_add_node. naive_solver.
  - subst rd. rewrite <- Hr. destruct (dict_get v nbrs); simplify_eq; auto.
Qed.

Lemma edge_update_inr s t items g r :
  adj_get (adj g) s t = Some r ->
  edge_update s t items g =
    inr {| adj := adj g; datadicts := alter (dict_update items) r (datadicts g) |}.
Proof.
  unfold adj_get, edge_update, dict_getitem. intros H.
  destruct (dict_get s (adj g)) as [nbrs|]; [|done]. simpl in *. by rewrite H.
Qed.

(** ** The attribute dictionary of an edge *)

Lemma edge_dict_snoc reqs q p :
  edge_dict (reqs ++ [q]) p =
    if decide (same_edge p q.1) then dict_update q.2 (edge_dict reqs p)
    else edge_dict reqs p.
Proof. unfold edge_dict. by rewrite foldl_snoc. Qed.

Lemma edge_dict_proper reqs p p' :
  same_edge p p' -> edge_dict reqs p = edge_dict reqs p'.
Proof.
  intros Hp. induction reqs as [|q reqs IH] using rev_ind; [done|].
  rewrite !edge_dict_snoc, IH.
  destruct (decide (same_edge p q.1)) as [H|H], (decide (same_edge p' q.1)) as [H'|H'];
    try done.
  - destruct H'. by rewrite <- Hp.
  - destruct H. by rewrite Hp.
Qed.

Lemma edge_dict_app_none reqs1 reqs2 p :
  (forall q, q ∈ reqs2 -> ~ same_edge p q.1) ->
  edge_dict (reqs1 ++ reqs2) p = edge_dict reqs1 p.
Proof.
  induction reqs2 as [|q reqs2 IH] using rev_ind; intros H.
  - by rewrite app_nil_r.
  - rewrite app_assoc, edge_dict_snoc, decide_False.
    + apply IH. intros q' Hq'. apply H, elem_of_app. by left.
    + apply H, elem_of_app. right. by apply list_elem_of_singleton.
Qed.

Lemma edge_dict_none reqs p :
  (forall q, q ∈ reqs -> ~ same_edge p q.1) -> edge_dict reqs p = ∅.
Proof. intros H. by rewrite <- (app_nil_l reqs), edge_dict_app_none. Qed.

(** ** The invariant of the loop of [from_pandas_edgelist] *)

Lemma graph_inv_empty : graph_inv [] empty_graph.
Proof.
  split; simpl; try done.
  - split; [apply NoDup_nil_2 | done].
  - intros x. split; [by intros ?%elem_of_nil | by intros (? & ?%elem_of_nil & _)].
  - intros x y. split; [by intros [? ?] | by intros (? & ?%elem_of_nil & _)].
Qed.

Lemma add_request_inv reqs g q :
  graph_inv reqs g ->
  exists g', add_request g q = inr g' /\ graph_inv (reqs ++ [q]) g'.
Proof.
  intros [Hwf Hsym Hnodes Hedges Hinj Hdata]. destruct q as [[u v] items].
  unfold add_request. simpl.
  destruct (add_edge_spec u v g Hwf) as (g1 & r & -> & Hwf1 & Hget & Hn1 & Hr).
  simpl. assert (Hg1 : adj_get (adj g1) u v = Some r).
  { rewrite Hget. by rewrite decide_True. }
  rewrite (edge_update_inr _ _ _ _ _ Hg1). eexists. split; [done|].
  (* a reference of the old graph is allocated and differs from a fresh one *)
  assert (Hold : forall x y r', adj_get (adj g) x y = Some r' ->
                   (r' < length (datadicts g))%nat).
  { intros x y r' H. eapply lookup_lt_Some, Hdata, H. }
  assert (Hne : forall x y r', ~ same_edge (x, y) (u, v) ->
                  adj_get (adj g) x y = Some r' -> r' <> r).
  { intros x y r' Hs H ->. destruct Hr as [[Hr _]|(_ & -> & _)].
    - apply Hs. eapply Hinj; eauto.
    - apply Hold in H. lia. }
  split; simpl.
  - done.
  - intros x y. rewrite !Hget.
    destruct (decide (same_edge (x, y) (u, v))) as [H|H],
             (decide (same_edge (y, x) (u, v))) as [H'|H']; try done.
    + destruct H'. by rewrite (same_edge_swap y x).
    + destruct H. by rewrite (same_edge_swap x y).
  - intros x. rewrite Hn1, Hnodes. setoid_rewrite elem_of_app.
    setoid_rewrite list_elem_of_singleton. split.
    + intros [(q & Hq & Hx)|Hx]; [by eauto|]. exists (u, v, items). auto.
    + intros (q & [Hq| ->] & Hx); [left; eauto | by right].
  - intros x y. rewrite Hget. setoid_rewrite elem_of_app.
    setoid_rewrite list_elem_of_singleton.
    destruct (decide (same_edge (x, y) (u, v))) as [H|H].
    + split; [|by eauto]. intros _. exists (u, v, items). auto.
    + rewrite Hedges. split.
      * intros (q & Hq & Hx). eauto.
      * intros (q & [Hq| ->] & Hx); [eauto | done].
  - intros x y x' y' r'. rewrite !Hget.
    destruct (decide (same_edge (x, y) (u, v))) as [H|H],
             (decide (same_edge (x', y') (u, v))) as [H'|H']; intros H1 H2.
    + by rewrite H, H'.
    + simplify_eq. by destruct (Hne _ _ _ H' H2).
    + simplify_eq. by destruct (Hne _ _ _ H H1).
    + eauto.
  - intros x y r'. rewrite Hget, edge_dict_snoc. simpl.
    destruct (decide (same_edge (x, y) (u, v))) as [H|H]; intros H1.
    + simplify_eq. rewrite list_lookup_alter_eq.
      rewrite (edge_dict_proper _ _ _ H).
      destruct Hr as [[Hr ->]|(Hr & -> & ->)].
      * by rewrite (Hdata _ _ _ Hr).
      * rewrite lookup_app_r, Nat.sub_diag by done. simpl.
        rewrite edge_dict_none; [done|].
        intros q Hq Hs. assert (is_Some (adj_get (adj g) u v)) as [? ?]; [|congruence].
        apply Hedges. eauto.
    + rewrite list_lookup_alter_ne by (symmetry; eauto).
      destruct Hr as [[Hr ->]|(Hr & -> & ->)]; [eauto|].
      rewrite lookup_app_l by eauto. eauto.
Qed.

Lemma rfold_add_request_inv reqs0 g0 reqs :
  graph_inv reqs0 g0 ->
  exists g, rfold add_request g0 reqs = inr g /\ graph_inv (reqs0 ++ reqs) g.
Proof.
  revert reqs0 g0. induction reqs as [|q reqs IH]; intros reqs0 g0 Hinv; simpl.
  - exists g0. by rewrite app_nil_r.
  - destruct (add_request_inv _ _ q Hinv) as (g1 & -> & Hinv1). simpl.
    destruct (IH _ _ Hinv1) as (g & Hg & Hinv2).
    exists g. split; [done|]. by rewrite <- app_assoc in Hinv2.
Qed.

(** ** The iteration of [edges] *)

Lemma elem_of_edges_from seen a x y r :
  (x, y, r) ∈ edges_from seen a <->
  exists a1 nbrs a2,
    a = (a1 ++ (x, nbrs) :: a2) /\ (y, r) ∈ nbrs /\ (y ∉ seen) /\ (y ∉ dict_keys a1).
Proof.
  revert seen. induction a as [|[n nb] a IH]; intros seen; simpl.
  - split; [by intros ?%elem_of_nil|]. intros (a1 & ? & ? & H & _). by destruct a1.
  - rewrite elem_of_app, IH, list_elem_of_fmap.
    setoid_rewrite list_elem_of_filter. split.
    + intros [([y' r'] & He & Hseen & Hin)|(a1 & nbrs & a2 & -> & Hin & Hseen & Hk)].
      * simpl in *. simplify_eq. exists [], nb, a.
        split_and!; [done..|apply not_elem_of_nil].
      * exists ((n, nb) :: a1), nbrs, a2.
        rewrite elem_of_app, list_elem_of_singleton in Hseen.
        unfold dict_keys in *. csimpl. rewrite not_elem_of_cons. naive_solver.
    + intros (a1 & nbrs & a2 & Heq & Hin & Hseen & Hk).
      destruct a1 as [|[n' nb'] a1]; simplify_eq/=.
      * left. exists (y, r). done.
      * right. exists a1, nbrs, a2. unfold dict_keys in *. csimpl in *.
        rewrite not_elem_of_cons in Hk.
        rewrite elem_of_app, list_elem_of_singleton. naive_solver.
Qed.

(** Every listed edge is an entry of the adjacency. *)
Lemma edges_from_sound a x y r :
  adj_wf a -> (x, y, r) ∈ edges_from [] a -> adj_get a x y = Some r.
Proof.
  intros [Hk Hn] (a1 & nbrs & a2 & -> & Hin & _ & _)%elem_of_edges_from.
  assert (Hx : dict_get x (a1 ++ (x, nbrs) :: a2) = Some nbrs).
  { apply dict_elem_get; [done|]. apply elem_of_app. right. left. }
  unfold adj_get. rewrite Hx. simpl. apply dict_elem_get; eauto.
Qed.

(** Every entry of a symmetric adjacency is listed, in one direction. *)
Lemma edges_from_complete a x y r :
  (forall x y, adj_get a x y = adj_get a y x) ->
  adj_get a x y = Some r ->
  (x, y, r) ∈ edges_from [] a \/ (y, x, r) ∈ edges_from [] a.
Proof.
  intros Hsym Hxy. pose proof Hxy as Hyx. rewrite Hsym in Hyx.
  unfold adj_get in Hxy, Hyx.
  destruct (dict_get x a) as [nbrs|] eqn:Hx; [|done].
  destruct (dict_get y a) as [nbrs'|] eqn:Hy; [|done]. simpl in *.
  destruct (dict_get_split _ _ _ Hx) as (a1 & a2 & -> & Hx1).
  destruct (decide (y ∈ dict_keys a1)) as [Hin|Hin].
  - right. apply dict_get_keys in Hin as [nb Hnb].
    destruct (dict_get_split _ _ _ Hnb) as (b1 & b2 & -> & Hy1).
    assert (nb = nbrs') as ->.
    { rewrite <- app_assoc in Hy. simpl in Hy.
      rewrite dict_get_app in Hy by done. simpl in Hy.
      rewrite decide_True in Hy by done. congruence. }
    apply elem_of_edges_from. exists b1, nbrs', (b2 ++ (x, nbrs) :: a2).
    split_and!.
    + by rewrite <- app_assoc.
    + by apply dict_get_elem.
    + apply not_elem_of_nil.
    + intros H. apply Hx1. unfold dict_keys in *. rewrite fmap_app.
      apply elem_of_app. by left.
  - left. apply elem_of_edges_from. exists a1, nbrs, a2.
    split_and!; [done | by apply dict_get_elem | apply not_elem_of_nil | done].
Qed.

Lemma NoDupA_same_edge_pair n (l : list value) :
  NoDup l -> NoDupA same_edge (pair n <$> l).
Proof.
  induction 1 as [|y l Hy Hl IH]; csimpl; constructor; [|done].
  intros (p & Hs & Hp)%InA_alt.
  apply list_elem_of_In, list_elem_of_fmap in Hp as (y' & -> & Hy').
  apply same_edge_pair in Hs. naive_solver.
Qed.

(** No undirected edge is listed twice. *)
Lemma edges_from_NoDupA seen a :
  adj_wf a -> NoDupA same_edge ((fun e => e.1) <$> edges_from seen a).
Proof.
  revert seen. induction a as [|[n nb] a IH]; intros seen [Hk Hn]; simpl.
  - constructor.
  - unfold dict_keys in Hk. csimpl in Hk. apply NoDup_cons in Hk as [Hn' Hk].
    rewrite fmap_app. apply NoDupA_app; [apply _| | |].
    + rewrite <- list_fmap_compose.
      assert (Hnb : NoDup (dict_keys (filter (fun e => e.1 ∉ seen) nb))).
      { unfold dict_keys. apply NoDup_fmap_fst.
        - intros k v1 v2 H1%list_elem_of_filter H2%list_elem_of_filter.
          assert (NoDup (dict_keys nb)) as Hnd.
          { apply (Hn n). simpl. by rewrite decide_True. }
          pose proof (dict_elem_get _ _ _ Hnd (proj2 H1)).
          pose proof (dict_elem_get _ _ _ Hnd (proj2 H2)). congruence.
        - apply NoDup_filter. eapply NoDup_fmap_1.
          apply (Hn n). simpl. by rewrite decide_True. }
      apply (NoDupA_same_edge_pair n) in Hnb. revert Hnb. unfold dict_keys.
      by rewrite <- list_fmap_compose.
    + apply IH. split; [done|]. intros n' nbrs' H. apply (Hn n'). simpl.
      rewrite decide_False; [done|]. intros ->. apply Hn'.
      apply dict_get_keys. eauto.
    + intros p (p1 & Hs1 & Hp1)%InA_alt (p2 & Hs2 & Hp2)%InA_alt.
      apply list_elem_of_In, list_elem_of_fmap in Hp1 as ([[x1 y1] r1] & -> & H1).
      apply list_elem_of_In, list_elem_of_fmap in Hp2 as ([[x2 y2] r2] & -> & H2).
      apply list_elem_of_fmap in H1 as ([y r] & [= -> -> ->] & H1).
      apply list_elem_of_filter in H1 as [Hseen H1]. simpl in *.
      apply elem_of_edges_from in H2 as (a1 & nbrs & a2 & -> & Hin & Hseen2 & _).
      assert (Hs : same_edge (n, y) (x2, y2)) by (by rewrite <- Hs1, Hs2).
      apply same_edge_pair in Hs as [[<- <-]|[<- <-]].
      * apply Hn'. rewrite fmap_app. apply elem_of_app. right. csimpl. left.
      * apply Hseen2. apply elem_of_app. right. by apply list_elem_of_singleton.
Qed.

(** ** Counting undirected edges *)

Lemma PermutationA_same_edge_length l1 l2 :
  PermutationA same_edge l1 l2 -> length l1 = length l2.
Proof. induction 1; simpl; congruence. Qed.

Lemma InA_dedup_edges p l : InA same_edge p (dedup_edges l) <-> InA same_edge p l.
Proof.
  induction l as [|q l IH]; simpl; [done|].
  case_decide as Hq.
  - rewrite IH, InA_cons. split; [auto|]. intros [Hp|Hp]; [|done].
    apply Exists_exists in Hq as (y & Hy & Hqy). apply InA_alt.
    exists y. split; [by rewrite Hp | by apply list_elem_of_In].
  - by rewrite !InA_cons, IH.
Qed.

Lemma dedup_edges_NoDupA l : NoDupA same_edge (dedup_edges l).
Proof.
  induction l as [|q l IH]; simpl; [constructor|].
  case_decide as Hq; [done|]. constructor; [|done].
  by rewrite InA_dedup_edges, InA_altdef.
Qed.

Lemma dedup_edges_length l : (length (dedup_edges l) <= length l)%nat.
Proof. induction l as [|q l IH]; simpl; [done|]. case_decide; simpl; lia. Qed.

Lemma dedup_edges_id l : NoDupA same_edge l -> dedup_edges l = l.
Proof.
  induction 1 as [|q l Hq Hl IH]; simpl; [done|].
  rewrite decide_False, IH; [done|]. by rewrite <- InA_altdef.
Qed.

(** ** The edges of a graph built from requests *)

Section graph_of_requests.
Context (reqs : list request) (g : Graph) (Hinv : graph_inv reqs g).

Lemma graph_edges_sound u v d :
  (u, v, d) ∈ edges g ->
  d = edge_dict reqs (u, v) /\ exists q, q ∈ reqs /\ same_edge (u, v) q.1.
Proof.
  intros ([[u' v'] r] & [= -> -> ->] & He)%list_elem_of_fmap. simpl.
  apply edges_from_sound in He; [|apply Hinv]. split.
  - unfold deref. by rewrite (inv_data _ _ Hinv _ _ _ He).
  - apply (inv_edges _ _ Hinv). eauto.
Qed.

Lemma graph_edges_complete q :
  q ∈ reqs ->
  exists u v, (u, v, edge_dict reqs (u, v)) ∈ edges g /\ same_edge (u, v) q.1.
Proof.
  intros Hq. destruct q as [[s t] items]. simpl.
  assert (is_Some (adj_get (adj g) s t)) as [r Hr].
  { apply (inv_edges _ _ Hinv). exists (s, t, items). done. }
  assert (Hd : deref g r = edge_dict reqs (s, t)).
  { unfold deref. by rewrite (inv_data _ _ Hinv _ _ _ Hr). }
  destruct (edges_from_complete _ _ _ _ (inv_sym _ _ Hinv) Hr) as [He|He].
  - exists s, t. split; [|done]. apply list_elem_of_fmap.
    exists (s, t, r). simpl. by rewrite Hd.
  - exists t, s. split; [|apply same_edge_swap]. apply list_elem_of_fmap.
    exists (t, s, r). simpl. rewrite Hd. split; [|done].
    f_equal. apply edge_dict_proper, same_edge_swap.
Qed.

Lemma graph_edges_nodes u v d :
  (u, v, d) ∈ edges g -> u ∈ nodes g /\ v ∈ nodes g.
Proof.
  intros (_ & q & Hq & Hs)%graph_edges_sound.
  rewrite !(inv_nodes _ _ Hinv). destruct q as [[s t] items].
  apply same_edge_pair in Hs as [[-> ->]|[-> ->]];
    split; exists (s, t, items); simpl; auto.
Qed.

Lemma graph_edges_count :
  length (edges g) = length (dedup_edges ((fun q => q.1) <$> reqs)).
Proof.
  unfold edges. rewrite length_fmap.
  rewrite <- (length_fmap (fun e => e.1) (edges_from [] (adj g))).
  apply PermutationA_same_edge_length.
  apply NoDupA_equivlistA_PermutationA; [apply _| | |].
  - apply edges_from_NoDupA, Hinv.
  - apply dedup_edges_NoDupA.
  - intros [x y]. rewrite InA_dedup_edges, !InA_alt. split.
    + intros (p & Hs & Hp).
      apply list_elem_of_In, list_elem_of_fmap in Hp as ([[x' y'] r] & -> & He).
      apply edges_from_sound in He; [|apply Hinv]. simpl in Hs.
      assert (is_Some (adj_get (adj g) x' y')) as Hsome by eauto.
      apply (inv_edges _ _ Hinv) in Hsome as (q & Hq & Hsq).
      exists q.1. split; [by rewrite Hs|].
      apply list_elem_of_In, list_elem_of_fmap. eauto.
    + intros (p & Hs & Hp).
      apply list_elem_of_In, list_elem_of_fmap in Hp as (q & -> & Hq).
      assert (is_Some (adj_get (adj g) x y)) as [r Hr].
      { apply (inv_edges _ _ Hinv). eauto. }
      destruct (edges_from_complete _ _ _ _ (inv_sym _ _ Hinv) Hr) as [He|He].
      * exists (x, y). split; [done|].
        apply list_elem_of_In, list_elem_of_fmap. by exists (x, y, r).
      * exists (y, x). split; [apply same_edge_swap|].
        apply list_elem_of_In, list_elem_of_fmap. by exists (y, x, r).
Qed.
End graph_of_requests.

(** ** Columns by name *)

Lemma index_of_lookup name (l : list string) j :
  index_of name l = Some j -> l !! j = Some name.
Proof.
  revert j; induction l as [|n l IH]; intros j; simpl; [done|].
  case_decide; [by intros [= <-]; subst|].
  destruct (index_of name l); simpl; [|done]. intros [= <-]. by apply IH.
Qed.

Lemma index_of_lt name (l : list string) j :
  index_of name l = Some j -> (j < length l)%nat.
Proof. intros H%index_of_lookup. by eapply lookup_lt_Some. Qed.

Lemma index_of_None name (l : list string) : index_of name l = None <-> name ∉ l.
Proof.
  induction l as [|n l IH]; simpl.
  - split; [intros _; apply not_elem_of_nil | done].
  - rewrite not_elem_of_cons. case_decide; subst.
    + split; [done | naive_solver].
    + destruct (index_of name l); simpl.
      * split; [done|]. intros [_ Hn]. by apply IH in Hn.
      * split; [|done]. intros _. split; [done | by apply IH].
Qed.

Lemma index_of_is_Some name (l : list string) : is_Some (index_of name l) <-> name ∈ l.
Proof.
  destruct (index_of name l) eqn:E.
  - split; [|by eauto]. intros _. apply index_of_lookup in E.
    by eapply list_elem_of_lookup_2.
  - apply index_of_None in E. split; [by intros [? ?] | done].
Qed.

Lemma index_of_app_new name (l : list string) :
  name ∉ l -> index_of name (l ++ [name]) = Some (length l).
Proof.
  induction l as [|n l IH]; simpl; intros H.
  - by rewrite decide_True.
  - apply not_elem_of_cons in H as [? ?]. rewrite decide_False by done.
    by rewrite IH.
Qed.

Lemma get_loc_inr data name j :
  get_loc data name = inr j <-> index_of name (columns data) = Some j.
Proof. apply of_option_inr. Qed.

(** ** From the rows of the table to requests *)

#[local] Arguments edge_attr : simpl never.

Lemma edge_items_of_row data row names edge_i :
  length row = length (columns data) ->
  rmap (fun i => let? j := get_loc data i in inr (i, j)) names = inr edge_i ->
  exists items,
    rmap (fun ij => let? x := row_get row ij.2 in inr (ij.1, x)) edge_i = inr items /\
    mapM (fun name => pair name <$> cell data row name) names = Some items.
Proof.
  intros Hlen. revert edge_i.
  induction names as [|name names IH]; intros edge_i H; simpl in H.
  - inv_result. subst. by exists [].
  - inv_result. subst. rename x1 into j, x0 into rest.
    apply get_loc_inr in Hx1.
    destruct (IH _ Hx0) as (items & Hitems & HmapM).
    assert (is_Some (row !! j)) as [v Hv].
    { apply lookup_lt_is_Some. rewrite Hlen. by eapply index_of_lt. }
    exists ((name, v) :: items). simpl. unfold row_get at 1. rewrite Hv. simpl.
    rewrite Hitems. simpl. split; [done|].
    assert (cell data row name = Some v) as ->.
    { unfold cell. rewrite Hx1. done. }
    simpl. by rewrite HmapM.
Qed.

Lemma add_row_request data src_i tar_i edge_i row :
  get_loc data "PIN RESET MSISDN" = inr src_i ->
  get_loc data "CREDIT PARTY" = inr tar_i ->
  rmap (fun i => let? j := get_loc data i in inr (i, j)) edge_attr = inr edge_i ->
  length row = length (columns data) ->
  exists q, row_request data row = Some q /\
            forall g0, add_row src_i tar_i edge_i g0 row = add_request g0 q.
Proof.
  intros Hs%get_loc_inr Ht%get_loc_inr Hi Hlen.
  destruct (edge_items_of_row _ _ _ _ Hlen Hi) as (items & Hitems & HmapM).
  assert (is_Some (row !! src_i)) as [s Hrs].
  { apply lookup_lt_is_Some. rewrite Hlen. by eapply index_of_lt. }
  assert (is_Some (row !! tar_i)) as [t Hrt].
  { apply lookup_lt_is_Some. rewrite Hlen. by eapply index_of_lt. }
  exists (s, t, items). split.
  - assert (cell data row "PIN RESET MSISDN" = Some s) as Hcs.
    { unfold cell. by rewrite Hs. }
    assert (cell data row "CREDIT PARTY" = Some t) as Hct.
    { unfold cell. by rewrite Ht. }
    unfold row_request, endpoints_of, row_items.
    by rewrite Hcs, Hct, HmapM.
  - intros g0. unfold add_row, add_request.
    assert (row_get row src_i = inr s) as -> by (unfold row_get; by rewrite Hrs).
    assert (row_get row tar_i = inr t) as -> by (unfold row_get; by rewrite Hrt).
    simpl. destruct (add_edge s t g0); simpl; [done|].
    by rewrite Hitems.
Qed.

Lemma rfold_add_row data src_i tar_i edge_i rows :
  get_loc data "PIN RESET MSISDN" = inr src_i ->
  get_loc data "CREDIT PARTY" = inr tar_i ->
  rmap (fun i => let? j := get_loc data i in inr (i, j)) edge_attr = inr edge_i ->
  (forall row, row ∈ rows -> length row = length (columns data)) ->
  Forall2 (fun row q => row_request data row = Some q)
          rows (omap (row_request data) rows) /\
  forall g0, rfold (add_row src_i tar_i edge_i) g0 rows =
             rfold add_request g0 (omap (row_request data) rows).
Proof.
  intros Hs Ht Hi. induction rows as [|row rows IH]; intros Hlen.
  - split; [constructor | done].
  - destruct (add_row_request _ _ _ _ row Hs Ht Hi) as (q & Hq & Hadd).
    { apply Hlen. left. }
    destruct IH as [IH1 IH2]. { intros ? ?. apply Hlen. by right. }
    simpl. rewrite Hq. split; [by constructor|].
    intros g0. simpl. rewrite Hadd. destruct (add_request g0 q); simpl; [done|].
    apply IH2.
Qed.

Lemma from_pandas_edgelist_inv data g :
  rectangular data ->
  from_pandas_edgelist data "PIN RESET MSISDN" "CREDIT PARTY" edge_attr = inr g ->
  graph_inv (requests data) g /\
  Forall2 (fun row q => row_request data row = Some q) (values data) (requests data).
Proof.
  intros Hrect H. unfold from_pandas_edgelist in H. inv_result.
  destruct (rfold_add_row data _ _ _ (values data) Hx Hx0 Hx1 Hrect) as [HF Hfold].
  split; [|done]. rewrite Hfold in H.
  destruct (rfold_add_request_inv [] empty_graph (requests data) graph_inv_empty)
    as (g' & Hg' & Hinv).
  unfold requests in *. assert (g' = g) as -> by congruence. exact Hinv.
Qed.

(** With every named column present, the graph is built. *)
Lemma from_pandas_edgelist_total data :
  rectangular data ->
  (forall name, name ∈ edge_attr -> name ∈ columns data) ->
  exists g, from_pandas_edgelist data "PIN RESET MSISDN" "CREDIT PARTY" edge_attr = inr g.
Proof.
  intros Hrect Hnames.
  assert (Hloc : forall name, name ∈ edge_attr ->
            exists j, get_loc data name = inr j).
  { intros name [j Hj]%Hnames%index_of_is_Some. exists j. by apply get_loc_inr. }
  unfold from_pandas_edgelist.
  destruct (Hloc "PIN RESET MSISDN") as [src_i Hs]; [set_solver|].
  destruct (Hloc "CREDIT PARTY") as [tar_i Ht]; [unfold edge_attr; set_solver|].
  rewrite Hs, Ht. cbn [rbind].
  assert (exists edge_i,
    rmap (fun i => let? j := get_loc data i in inr (i, j)) edge_attr = inr edge_i)
    as [edge_i Hi].
  { revert Hloc. generalize edge_attr. intros names Hloc.
    induction names as [|n names IH]; [by eexists|].
    destruct (Hloc n) as [j Hj]; [left|]. destruct IH as [rest Hrest].
    { intros ? ?. apply Hloc. by right. }
    exists ((n, j) :: rest). simpl. rewrite Hj. simpl. by rewrite Hrest. }
  rewrite Hi. cbn [rbind].
  destruct (rfold_add_row data _ _ _ (values data) Hs Ht Hi Hrect) as [_ ->].
  destruct (rfold_add_request_inv [] empty_graph (requests data) graph_inv_empty)
    as (g & Hg & _).
  by exists g.
Qed.

(** ** The loaded table *)

Lemma take_cols_inr {A} (l l' : list A) :
  take_cols l = inr l' ->
  length l' = 9%nat /\
  forall k j, usecols !! k = Some j -> l' !! k = l !! j.
Proof.
  intros H. split.
  - by apply rmap_inr_length in H.
  - intros k j Hk. destruct (rmap_inr_lookup _ _ _ _ _ H Hk) as (y & Hy & Hj).
    apply of_option_inr in Hj. congruence.
Qed.

Lemma pd_read_csv_inr t raw :
  pd_read_csv t = inr raw ->
  take_cols (header t) = inr (columns raw) /\
  rmap take_cols (records t) = inr (values raw).
Proof. unfold pd_read_csv. intros H. inv_result. by subst. Qed.

Lemma pd_read_csv_rectangular t raw : pd_read_csv t = inr raw -> rectangular raw.
Proof.
  intros [Hc Hv]%pd_read_csv_inr row Hrow.
  apply take_cols_inr in Hc as [-> _].
  apply list_elem_of_lookup in Hrow as [i Hi].
  assert (is_Some (records t !! i)) as [r Hr].
  { apply lookup_lt_is_Some. rewrite <- (rmap_inr_length _ _ _ Hv).
    by eapply lookup_lt_Some. }
  destruct (rmap_inr_lookup _ _ _ _ _ Hv Hr) as (row' & Hrow' & Htc).
  apply take_cols_inr in Htc as [? _]. congruence.
Qed.

Lemma setitem_rectangular data name col :
  rectangular data -> rectangular (setitem data name col).
Proof.
  intros Hrect row. unfold setitem.
  destruct (index_of name (columns data)) as [j|]; simpl;
    intros (r & v & -> & Hr & _)%elem_of_zip_with.
  - rewrite length_insert. auto.
  - rewrite !length_app. simpl. f_equal. auto.
Qed.

Lemma setitem_length data name col :
  length col = len_index data -> len_index (setitem data name col) = len_index data.
Proof.
  unfold len_index, setitem. intros H.
  destruct (index_of name (columns data)); simpl; rewrite length_zip_with; lia.
Qed.

(** After [data[name] = col], row [i] holds [col[i]] under [name]. *)
Lemma setitem_cell data name col i row' :
  rectangular data ->
  values (setitem data name col) !! i = Some row' ->
  exists v, col !! i = Some v /\ cell (setitem data name col) row' name = Some v.
Proof.
  intros Hrect. unfold cell, setitem.
  destruct (index_of name (columns data)) as [j|] eqn:E; simpl;
    intros (r & v & -> & Hr & Hv)%lookup_zip_with_Some; exists v; (split; [done|]).
  - rewrite E. simpl. apply list_lookup_insert_eq.
    rewrite (Hrect r) by (by eapply list_elem_of_lookup_2).
    by eapply index_of_lt.
  - rewrite index_of_app_new by (by apply index_of_None). simpl.
    rewrite <- (Hrect r) by (by eapply list_elem_of_lookup_2).
    by rewrite lookup_app_r, Nat.sub_diag.
Qed.

Lemma setitem_columns data name col : name ∈ columns (setitem data name col).
Proof.
  unfold setitem. destruct (index_of name (columns data)) eqn:E; simpl.
  - apply index_of_is_Some. eauto.
  - apply elem_of_app. right. by apply list_elem_of_singleton.
Qed.

Lemma setitem_columns_old data name col n :
  n ∈ columns data -> n ∈ columns (setitem data name col).
Proof.
  unfold setitem. destruct (index_of name (columns data)); simpl; [done|].
  intros H. apply elem_of_app. by left.
Qed.


Lemma TIME_entry_inr raw i v :
  TIME_entry raw i = inr v ->
  exists d0 d2 before,
    iat raw i 0 = inr d0 /\ iat raw i 2 = inr d2 /\ py_lt d0 d2 = inr before /\
    v = VInt (if before then 0 else 1).
Proof. unfold TIME_entry. intros H. inv_result. subst. eauto 10. Qed.

(** ** The methods, when they return *)

Lemma read_csv_inr self w data w' :
  read_csv self w = (inr data, w') ->
  w' = w /\
  exists t raw TIME,
    fs w !! file_name self = Some (Csv t) /\
    pd_read_csv t = inr raw /\
    rmap (TIME_entry raw) (seq 0 (len_index raw)) = inr TIME /\
    data = setitem raw "TIME" TIME.
Proof.
  unfold read_csv, try_except, bind, open_read_csv, lift, ret, raise, print.
  destruct (fs w !! file_name self) as [[t|doc]|]; simpl; [| done | done].
  destruct (pd_read_csv t) as [e|raw] eqn:Eraw; simpl.
  { destruct e; intros [= ? ?]. }
  destruct (rmap (TIME_entry raw) (seq 0 (len_index raw))) as [e|TIME] eqn:ET; simpl.
  { destruct e; intros [= ? ?]. }
  intros [= <- <-]. split; [done|]. by exists t, raw, TIME.
Qed.

Lemma build_nx_inr self w g w' :
  build_nx self w = (inr g, w') ->
  w' = w /\
  exists data,
    read_csv self w = (inr data, w) /\
    from_pandas_edgelist data "PIN RESET MSISDN" "CREDIT PARTY" edge_attr = inr g.
Proof.
  unfold build_nx, try_except, bind, lift, ret, raise, print.
  destruct (read_csv self w) as [[e|data] w1] eqn:Eread; simpl.
  { destruct e; intros [= ? ?]. }
  apply read_csv_inr in Eread as Hw. destruct Hw as [-> _].
  destruct (from_pandas_edgelist data _ _ _) as [e|g'] eqn:Eg; simpl.
  { destruct e; intros [= ? ?]. }
  intros [= <- <-]. split; [done|]. by exists data.
Qed.

(** What is known of the table and the graph once [build_nx] has returned. *)
Lemma build_nx_graph self w g w' :
  build_nx self w = (inr g, w') ->
  exists t data,
    fs w !! file_name self = Some (Csv t) /\
    read_csv self w = (inr data, w) /\
    len_index data = length (records t) /\
    rectangular data /\
    graph_inv (requests data) g /\
    Forall2 (fun row q => row_request data row = Some q) (values data) (requests data) /\
    (forall row, row ∈ values data ->
       cell data row "TIME" = Some (VInt 0) \/ cell data row "TIME" = Some (VInt 1)).
Proof.
  intros (-> & data & Hread & Hg)%build_nx_inr.
  pose proof Hread as (_ & t & raw & TIME & Hfs & Hraw & HT & ->)%read_csv_inr.
  pose proof (pd_read_csv_rectangular _ _ Hraw) as Hrect.
  pose proof (rmap_inr_length _ _ _ HT) as HlenT. rewrite length_seq in HlenT.
  assert (Hrect' : rectangular (setitem raw "TIME" TIME))
    by (by apply setitem_rectangular).
  destruct (from_pandas_edgelist_inv _ _ Hrect' Hg) as [Hinv HF].
  exists t, (setitem raw "TIME" TIME). split_and!; try done.
  - rewrite setitem_length by done. unfold len_index.
    apply pd_read_csv_inr in Hraw as [_ Hv]. by apply rmap_inr_length in Hv.
  - intros row [i Hi]%list_elem_of_lookup.
    destruct (setitem_cell _ _ _ _ _ Hrect Hi) as (v & Hv & ->).
    assert (seq 0 (len_index raw) !! i = Some i) as Hseq.
    { apply lookup_seq. split; [done|]. rewrite <- HlenT. by eapply lookup_lt_Some. }
    destruct (rmap_inr_lookup _ _ _ _ _ HT Hseq) as (v' & Hv' & Hentry).
    apply TIME_entry_inr in Hentry as (d0 & d2 & [] & _ & _ & _ & ->);
      simplify_eq; auto.
Qed.

(** ** The items of a request *)

Lemma dict_update_lookup_notin items (d : attrs) k :
  k ∉ items.*1 -> dict_update items d !! k = d !! k.
Proof.
  unfold dict_update. revert d.
  induction items as [|[k0 v0] items IH]; intros d Hk; [done|].
  csimpl in *. apply not_elem_of_cons in Hk as [? ?].
  rewrite IH by done. by rewrite lookup_insert_ne.
Qed.

Lemma dict_update_lookup_in items (d : attrs) k v :
  k ∈ items.*1 -> (forall v', (k, v') ∈ items -> v' = v) ->
  dict_update items d !! k = Some v.
Proof.
  revert d. induction items as [|[k0 v0] items IH]; intros d Hk Hv.
  - by apply elem_of_nil in Hk.
  - change (dict_update ((k0, v0) :: items) d) with (dict_update items (<[k0:=v0]> d)).
    destruct (decide (k ∈ items.*1)) as [Hin|Hin].
    + apply IH; [done|]. intros ? ?. apply Hv. by right.
    + rewrite dict_update_lookup_notin by done.
      csimpl in Hk. apply elem_of_cons in Hk as [->|?]; [|done].
      rewrite lookup_insert_eq. f_equal. apply Hv. left.
Qed.

Lemma row_items_spec data row items :
  row_items data row = Some items ->
  items.*1 = edge_attr /\
  forall k v, (k, v) ∈ items -> cell data row k = Some v.
Proof.
  unfold row_items. intros H%mapM_Some. revert H. generalize edge_attr.
  intros names H. induction H as [|name kv names items Hx HF IH].
  - split; [done|]. by intros ? ? ?%elem_of_nil.
  - destruct IH as [IH1 IH2].
    destruct (cell data row name) as [v|] eqn:E; simplify_eq/=.
    split; [done|].
    intros k v' [?|?]%elem_of_cons; simplify_eq; auto.
Qed.

Lemma row_request_Some data row q :
  row_request data row = Some q ->
  endpoints_of data row = Some q.1 /\ row_items data row = Some q.2.
Proof.
  unfold row_request. intros H.
  destruct (endpoints_of data row) as [p|]; [|done]. simpl in H.
  destruct (row_items data row) as [items|]; [|done]. simpl in H.
  by simplify_eq.
Qed.

Lemma endpoints_of_Some data row p :
  endpoints_of data row = Some p <->
  cell data row "PIN RESET MSISDN" = Some p.1 /\ cell data row "CREDIT PARTY" = Some p.2.
Proof.
  unfold endpoints_of. destruct p as [s t]. simpl.
  destruct (cell data row "PIN RESET MSISDN") as [s'|]; simpl; [|naive_solver].
  destruct (cell data row "CREDIT PARTY") as [t'|]; simpl; naive_solver.
Qed.

Lemma requests_endpoints data :
  Forall2 (fun row q => row_request data row = Some q) (values data) (requests data) ->
  endpoints data = (fun q => q.1) <$> requests data.
Proof.
  unfold endpoints. generalize (requests data), (values data).
  intros reqs rows. induction 1 as [|row q rows reqs Hq HF IH]; [done|].
  apply row_request_Some in Hq as [Hq _]. csimpl. by rewrite Hq, IH.
Qed.

Lemma requests_items data :
  Forall2 (fun row q => row_request data row = Some q) (values data) (requests data) ->
  forall q, q ∈ requests data -> q.2.*1 = edge_attr.
Proof.
  intros HF q [i Hi]%list_elem_of_lookup.
  destruct (Forall2_lookup_r _ _ _ _ _ HF Hi) as (row & _ & Hq).
  apply row_request_Some in Hq as [_ Hq]. by apply row_items_spec in Hq as [? _].
Qed.

Lemma edge_dict_lookup_outside reqs p k :
  (forall q, q ∈ reqs -> q.2.*1 = edge_attr) ->
  k ∉ edge_attr -> edge_dict reqs p !! k = None.
Proof.
  intros Hq Hk. induction reqs as [|q reqs IH] using rev_ind; [done|].
  rewrite edge_dict_snoc.
  assert (IH' : edge_dict reqs p !! k = None).
  { apply IH. intros ? ?. apply Hq, elem_of_app. by left. }
  case_decide; [|done].
  rewrite dict_update_lookup_notin; [done|]. rewrite Hq; [done|].
  apply elem_of_app. right. by apply list_elem_of_singleton.
Qed.

(** The edge of the last request for a pair holds the cells of its row. *)
Lemma edge_dict_last data row reqs1 q reqs2 p :
  same_edge p q.1 ->
  (forall q', q' ∈ reqs2 -> ~ same_edge p q'.1) ->
  (forall q', q' ∈ reqs1 -> q'.2.*1 = edge_attr) ->
  row_items data row = Some q.2 ->
  forall name,
    edge_dict (reqs1 ++ q :: reqs2) p !! name =
      if decide (name ∈ edge_attr) then cell data row name else None.
Proof.
  intros Hp Hlater Hearlier [Hkeys Hcells]%row_items_spec name.
  rewrite (cons_middle q), app_assoc, edge_dict_app_none by done.
  rewrite edge_dict_snoc, decide_True by done.
  destruct (decide (name ∈ edge_attr)) as [Hin|Hin].
  - rewrite <- Hkeys in Hin. pose proof Hin as Hin'.
    apply list_elem_of_fmap in Hin' as ([k v] & -> & Hkv). simpl.
    rewrite (Hcells _ _ Hkv). apply dict_update_lookup_in; [done|].
    intros v' Hv'. apply Hcells in Hkv, Hv'. congruence.
  - rewrite dict_update_lookup_notin by (by rewrite Hkeys).
    by apply edge_dict_lookup_outside.
Qed.

(** Splitting the requests along the rows. *)
Lemma requests_split data rows1 row rows2 :
  Forall2 (fun row q => row_request data row = Some q) (values data) (requests data) ->
  values data = rows1 ++ row :: rows2 ->
  exists reqs1 q reqs2,
    requests data = reqs1 ++ q :: reqs2 /\
    row_request data row = Some q /\
    Forall2 (fun row q => row_request data row = Some q) rows1 reqs1 /\
    Forall2 (fun row q => row_request data row = Some q) rows2 reqs2.
Proof.
  intros HF Hv. rewrite Hv in HF.
  apply Forall2_app_inv_l in HF as (reqs1 & reqs' & H1 & H2 & ->).
  apply Forall2_cons_inv_l in H2 as (q & reqs2 & Hq & H2 & ->).
  exists reqs1, q, reqs2. done.
Qed.

(** ** Edges and the rows they come from *)

Lemma last_match {A} (P : A -> Prop) `{!forall x, Decision (P x)} (l : list A) x :
  x ∈ l -> P x ->
  exists l1 y l2, l = l1 ++ y :: l2 /\ P y /\ forall z, z ∈ l2 -> ~ P z.
Proof.
  induction l as [|z l IH] using rev_ind; [by intros ?%elem_of_nil|].
  intros Hx HP. destruct (decide (P z)) as [Hz|Hz].
  - exists l, z, []. split_and!; [done..|]. by intros ? ?%elem_of_nil.
  - apply elem_of_app in Hx as [Hx|Hx%list_elem_of_singleton]; [|by subst].
    destruct (IH Hx HP) as (l1 & y & l2 & -> & Hy & Hl2).
    exists l1, y, (l2 ++ [z]). split_and!; [by rewrite <- app_assoc | done |].
    intros z' [?|Hz'%list_elem_of_singleton]%elem_of_app; [auto | by subst].
Qed.

Section edges_of_rows.
Context (data : DataFrame) (g : Graph).
Context (Hinv : graph_inv (requests data) g).
Context (HF : Forall2 (fun row q => row_request data row = Some q)
                      (values data) (requests data)).

Lemma later_rows_requests rows2 reqs2 p :
  Forall2 (fun row q => row_request data row = Some q) rows2 reqs2 ->
  (forall row' p', row' ∈ rows2 -> endpoints_of data row' = Some p' -> ~ same_edge p p') <->
  (forall q', q' ∈ reqs2 -> ~ same_edge p q'.1).
Proof.
  intros H2. split.
  - intros Hrows q' [i Hi]%list_elem_of_lookup.
    destruct (Forall2_lookup_r _ _ _ _ _ H2 Hi) as (row' & Hrow' & Hq').
    apply row_request_Some in Hq' as [Hq' _].
    eapply Hrows; [by eapply list_elem_of_lookup_2 | done].
  - intros Hreqs row' p' [i Hi]%list_elem_of_lookup Hp'.
    destruct (Forall2_lookup_l _ _ _ _ _ H2 Hi) as (q' & Hq' & Hrq).
    apply row_request_Some in Hrq as [Hrq _].
    assert (p' = q'.1) as -> by congruence.
    apply Hreqs. by eapply list_elem_of_lookup_2.
Qed.

(** The last row between two accounts has an edge, which holds its cells. *)
Lemma edge_of_last_row row :
  last_of_pair data row ->
  exists u v d p,
    (u, v, d) ∈ edges g /\ endpoints_of data row = Some p /\ same_edge (u, v) p /\
    (forall name, name ∈ edge_attr -> is_Some (cell data row name)) /\
    (forall name,
       d !! name = if decide (name ∈ edge_attr) then cell data row name else None).
Proof.
  intros (rows1 & rows2 & p & Hv & Hp & Hlast).
  destruct (requests_split _ _ _ _ HF Hv) as (reqs1 & q & reqs2 & Hreqs & Hq & H1 & H2).
  apply row_request_Some in Hq as [Hq Hitems].
  assert (p = q.1) as -> by congruence.
  destruct (graph_edges_complete _ _ Hinv q) as (u & v & He & Hs).
  { rewrite Hreqs. apply elem_of_app. right. left. }
  exists u, v, (edge_dict (requests data) (u, v)), q.1.
  split_and!; [exact He | exact Hq | exact Hs | |].
  - intros name Hname. apply row_items_spec in Hitems as [Hkeys Hcells].
    rewrite <- Hkeys in Hname.
    apply list_elem_of_fmap in Hname as ([k x] & -> & Hkx). eauto.
  - rewrite Hreqs. apply edge_dict_last; [done| | |done].
    + intros q' Hq' Hs'.
      apply (proj1 (later_rows_requests _ _ q.1 H2) Hlast q' Hq').
      by rewrite <- Hs.
    + intros q' Hq'. apply (requests_items _ HF). rewrite Hreqs.
      apply elem_of_app. by left.
Qed.

(** Every edge holds the cells of the last row between its two accounts. *)
Lemma edge_has_last_row u v d :
  (u, v, d) ∈ edges g ->
  exists row p,
    last_of_pair data row /\ endpoints_of data row = Some p /\ same_edge (u, v) p /\
    (forall name,
       d !! name = if decide (name ∈ edge_attr) then cell data row name else None).
Proof.
  intros (-> & q0 & Hq0 & Hs0)%(graph_edges_sound _ _ Hinv).
  destruct (last_match (fun q : request => same_edge (u, v) q.1) _ _ Hq0 Hs0)
    as (reqs1 & q & reqs2 & Hreqs & Hs & Hlater).
  pose proof HF as HF'. rewrite Hreqs in HF'.
  apply Forall2_app_inv_r in HF' as (rows1 & rows' & H1 & H2 & Hv).
  apply Forall2_cons_inv_r in H2 as (row & rows2 & Hq & H2 & ->).
  apply row_request_Some in Hq as [Hq Hitems].
  exists row, q.1. split_and!; [|done..|].
  - exists rows1, rows2, q.1. split_and!; [done..|].
    apply (proj2 (later_rows_requests _ _ q.1 H2)).
    intros q' Hq' Hs'. apply (Hlater q' Hq'). by rewrite Hs.
  - rewrite Hreqs. apply edge_dict_last; [done..| |done].
    intros q' Hq'. apply (requests_items _ HF). rewrite Hreqs.
    apply elem_of_app. by left.
Qed.
(** The reset accounts the edges carry are those of the rows that are the
    last between their two accounts. *)
Lemma edge_reset_accounts i :
  Some i ∈ (fun d : attrs => d !! "PIN RESET MSISDN") <$> ((fun e => e.2) <$> edges g) <->
  exists row, last_of_pair data row /\ cell data row "PIN RESET MSISDN" = Some i.
Proof.
  rewrite <- list_fmap_compose, list_elem_of_fmap. split.
  - intros ([[u v] d] & Hd & He). simpl in Hd.
    destruct (edge_has_last_row _ _ _ He) as (row & p & Hlast & _ & _ & Hattrs).
    exists row. split; [done|]. rewrite Hd, Hattrs.
    rewrite decide_True; [done|]. unfold edge_attr. set_solver.
  - intros (row & Hlast & Hcell).
    destruct (edge_of_last_row _ Hlast) as (u & v & d & p & He & _ & _ & _ & Hattrs).
    exists (u, v, d). split; [|done]. simpl. rewrite Hattrs, decide_True; [done|].
    unfold edge_attr. set_solver.
Qed.
End edges_of_rows.

(** ** The methods, when the file is there *)

Lemma read_csv_ok self w t raw TIME :
  fs w !! file_name self = Some (Csv t) ->
  pd_read_csv t = inr raw ->
  rmap (TIME_entry raw) (seq 0 (len_index raw)) = inr TIME ->
  read_csv self w = (inr (setitem raw "TIME" TIME), w).
Proof.
  intros Hfs Hraw HT.
  unfold read_csv, try_except, bind, open_read_csv, lift, ret.
  by rewrite Hfs, Hraw, HT.
Qed.

Lemma build_nx_ok self w data g :
  read_csv self w = (inr data, w) ->
  from_pandas_edgelist data "PIN RESET MSISDN" "CREDIT PARTY" edge_attr = inr g ->
  build_nx self w = (inr g, w).
Proof.
  intros Hread Hg. unfold build_nx, try_except, bind, lift, ret.
  by rewrite Hread, Hg.
Qed.


Lemma edge_i_total data names :
  (forall name, name ∈ names -> name ∈ columns data) ->
  exists edge_i,
    rmap (fun i => let? j := get_loc data i in inr (i, j)) names = inr edge_i.
Proof.
  intros Hnames. induction names as [|n names IH]; [by eexists|].
  assert (is_Some (index_of n (columns data))) as [j Hj].
  { apply index_of_is_Some, Hnames. left. }
  apply get_loc_inr in Hj. destruct IH as [rest Hrest].
  { intros ? ?. apply Hnames. by right. }
  exists ((n, j) :: rest). simpl. rewrite Hj. simpl. by rewrite Hrest.
Qed.



Lemma from_pandas_edgelist_empty data :
  values data = [] ->
  (forall name, name ∈ edge_attr -> name ∈ columns data) ->
  from_pandas_edgelist data "PIN RESET MSISDN" "CREDIT PARTY" edge_attr = inr empty_graph.
Proof.
  intros Hv Hnames. unfold from_pandas_edgelist.
  assert (is_Some (index_of "PIN RESET MSISDN" (columns data))) as [src_i Hs].
  { apply index_of_is_Some, Hnames. unfold edge_attr. set_solver. }
  assert (is_Some (index_of "CREDIT PARTY" (columns data))) as [tar_i Ht].
  { apply index_of_is_Some, Hnames. unfold edge_attr. set_solver. }
  apply get_loc_inr in Hs, Ht. rewrite Hs, Ht. cbn [rbind].
  destruct (edge_i_total _ _ Hnames) as [edge_i ->]. cbn [rbind].
  by rewrite Hv.
Qed.

(** ** The methods return on valid files *)

Lemma rmap_total {A B} (f : A -> result B) (l : list A) :
  (forall x, x ∈ l -> exists y, f x = inr y) -> exists ys, rmap f l = inr ys.
Proof.
  induction l as [|x l IH]; intros H; [by eexists|].
  destruct (H x) as [y Hy]; [left|]. destruct IH as [ys Hys].
  { intros ? ?. apply H. by right. }
  exists (y :: ys). simpl. by rewrite Hy, Hys.
Qed.

Lemma read_csv_total self w t :
  fs w !! file_name self = Some (Csv t) ->
  loadable t = true ->
  exists data, read_csv self w = (inr data, w).
Proof.
  intros Hfs [Hh Hrows]%andb_true_iff.
  destruct (take_cols (header t)) as [|cols] eqn:Hcols; [done|].
  rewrite forallb_forall in Hrows.
  destruct (rmap_total take_cols (records t)) as [rows Hrmap].
  { intros r Hr%list_elem_of_In%Hrows. unfold row_loadable in Hr.
    destruct (take_cols r); [done | by eexists]. }
  set (raw := {| columns := cols; values := rows |}).
  assert (Hraw : pd_read_csv t = inr raw).
  { unfold pd_read_csv. by rewrite Hcols, Hrmap. }
  destruct (rmap_total (TIME_entry raw) (seq 0 (len_index raw))) as [TIME HT].
  { intros i [_ Hi]%elem_of_seq. simpl in Hi.
    destruct (lookup_lt_is_Some_2 rows i Hi) as [rr Hrr].
    assert (is_Some (records t !! i)) as [r Hr].
    { apply lookup_lt_is_Some. by rewrite <- (rmap_inr_length _ _ _ Hrmap). }
    destruct (rmap_inr_lookup _ _ _ _ _ Hrmap Hr) as (rr' & Hrr' & Htc).
    assert (rr' = rr) as -> by (simpl in *; congruence).
    assert (Hl : row_loadable r = true).
    { apply Hrows, list_elem_of_In. by eapply list_elem_of_lookup_2. }
    unfold row_loadable in Hl. rewrite Htc in Hl.
    destruct (rr !! 0%nat) as [d0|] eqn:E0; [|done].
    destruct (rr !! 2%nat) as [d2|] eqn:E2; [|done].
    destruct (py_lt d0 d2) as [|c] eqn:Ec; [done|].
    exists (VInt (if c then 0 else 1)).
    unfold TIME_entry, iat. simpl. rewrite Hrr. simpl. rewrite E0. simpl.
    rewrite E2. simpl. by rewrite Ec. }
  exists (setitem raw "TIME" TIME). by apply (read_csv_ok _ _ t).
Qed.

Lemma build_nx_total self w t :
  fs w !! file_name self = Some (Csv t) ->
  valid_file t = true ->
  exists g, build_nx self w = (inr g, w).
Proof.
  intros Hfs [Hload Hnames]%andb_true_iff.
  destruct (read_csv_total _ _ _ Hfs Hload) as [data Hread].
  pose proof Hread as (_ & t' & raw & TIME & Hfs' & Hraw & HT & ->)%read_csv_inr.
  assert (t' = t) as -> by congruence.
  pose proof Hraw as [Hcols _]%pd_read_csv_inr. rewrite Hcols in Hnames.
  rewrite forallb_forall in Hnames.
  destruct (from_pandas_edgelist_total (setitem raw "TIME" TIME)) as [g Hg].
  - apply setitem_rectangular. by eapply pd_read_csv_rectangular.
  - intros name Hname%list_elem_of_In%Hnames.
    apply orb_true_iff in Hname as [Hin%bool_decide_eq_true | ->%bool_decide_eq_true].
    + by apply setitem_columns_old.
    + apply setitem_columns.
  - exists g. by eapply build_nx_ok.
Qed.

(** * The claims *)

Ltac graph_of_valid_file t Hfs Hvalid :=
  destruct (build_nx_total _ _ _ Hfs Hvalid) as [g Hg];
  pose proof Hg as (t' & data & Hfs' & Hread & Hlen & _ & Hinv & HF & HTIME)%build_nx_graph;
  assert (t' = t) as -> by congruence.

(** ** The graph builder *)

(** C1, as the code has it: on a valid file the graph builder returns a
    graph with one edge for every distinct undirected pair of accounts among
    the rows: never more edges than rows, and as many edges as rows when no
    two rows connect the same pair. *)
Theorem build_nx_edge_count self w t :
  fs w !! file_name self = Some (Csv t) ->
  valid_file t = true ->
  exists data g,
    read_csv self w = (inr data, w) /\
    build_nx self w = (inr g, w) /\
    length (endpoints data) = length (records t) /\
    length (edges g) = length (dedup_edges (endpoints data)) /\
    (length (edges g) <= length (records t))%nat /\
    (NoDupA same_edge (endpoints data) -> length (edges g) = length (records t)).
Proof.
  intros Hfs Hvalid. graph_of_valid_file t Hfs Hvalid.
  exists data, g.
  assert (Hn : length (endpoints data) = length (records t)).
  { rewrite (requests_endpoints _ HF), length_fmap.
    etrans; [symmetry; apply (Forall2_length _ _ _ HF) | exact Hlen]. }
  assert (He : length (edges g) = length (dedup_edges (endpoints data))).
  { rewrite (graph_edges_count _ _ Hinv). by rewrite <- (requests_endpoints _ HF). }
  split_and!; try done.
  - rewrite He, <- Hn. apply dedup_edges_length.
  - intros Hnd. by rewrite He, dedup_edges_id.
Qed.

Lemma build_nx_edge_count_witness :
  exists data g,
    read_csv sample_self two_credits = (inr data, two_credits) /\
    build_nx sample_self two_credits = (inr g, two_credits) /\
    length (endpoints data) = 2%nat /\
    length (edges g) = length (dedup_edges (endpoints data)) /\
    (length (edges g) <= 2)%nat /\
    (NoDupA same_edge (endpoints data) -> length (edges g) = 2%nat).
Proof.
  apply (build_nx_edge_count sample_self two_credits
           {| header := sample_header;
              records := [sample_record 21 msisdn1 22 (VInt 1001) 1;
                          sample_record 25 msisdn1 20 (VInt 1002) 2] |}).
  - vm_compute. reflexivity.
  - vm_compute. reflexivity.
Defined.

(** C1 fails as stated: a valid file with two rows between the same two
    accounts yields a graph with a single edge. *)
Lemma build_nx_edge_count_counterexample :
  exists t g,
    fs same_pair_twice !! file_name sample_self = Some (Csv t) /\
    valid_file t = true /\
    length (records t) = 2%nat /\
    build_nx sample_self same_pair_twice = (inr g, same_pair_twice) /\
    length (edges g) = 1%nat.
Proof.
  eexists _, (graph_of same_pair_twice). split_and!; vm_compute; reflexivity.
Qed.

(** C5: on a valid file the nodes of the graph are the reset accounts and
    the credited accounts of the rows, and every edge joins two nodes. *)
Theorem build_nx_nodes self w t :
  fs w !! file_name self = Some (Csv t) ->
  valid_file t = true ->
  exists data g,
    read_csv self w = (inr data, w) /\
    build_nx self w = (inr g, w) /\
    len_index data = length (records t) /\
    (forall x, x ∈ nodes g <->
       exists row, row ∈ values data /\
         (cell data row "PIN RESET MSISDN" = Some x \/
          cell data row "CREDIT PARTY" = Some x)) /\
    (forall u v d, (u, v, d) ∈ edges g -> u ∈ nodes g /\ v ∈ nodes g).
Proof.
  intros Hfs Hvalid. graph_of_valid_file t Hfs Hvalid.
  exists data, g. split_and!; [done..| |].
  - intros x. rewrite (inv_nodes _ _ Hinv). split.
    + intros (q & [i Hi]%list_elem_of_lookup & Hx).
      destruct (Forall2_lookup_r _ _ _ _ _ HF Hi) as (row & Hrow & Hq).
      apply row_request_Some in Hq as [[Hs Ht]%endpoints_of_Some _].
      exists row. split; [by eapply list_elem_of_lookup_2|].
      destruct Hx as [-> | ->]; auto.
    + intros (row & [i Hi]%list_elem_of_lookup & Hx).
      destruct (Forall2_lookup_l _ _ _ _ _ HF Hi) as (q & Hq & Hrq).
      apply row_request_Some in Hrq as [[Hs Ht]%endpoints_of_Some _].
      exists q. split; [by eapply list_elem_of_lookup_2|].
      destruct Hx as [Hx|Hx]; [left | right]; congruence.
  - intros u v d. by apply (graph_edges_nodes _ _ Hinv).
Qed.

Lemma build_nx_nodes_witness :
  exists data g,
    read_csv sample_self two_credits = (inr data, two_credits) /\
    build_nx sample_self two_credits = (inr g, two_credits) /\
    len_index data = 2%nat /\
    (forall x, x ∈ nodes g <->
       exists row, row ∈ values data /\
         (cell data row "PIN RESET MSISDN" = Some x \/
          cell data row "CREDIT PARTY" = Some x)) /\
    (forall u v d, (u, v, d) ∈ edges g -> u ∈ nodes g /\ v ∈ nodes g).
Proof.
  apply (build_nx_nodes sample_self two_credits
           {| header := sample_header;
              records := [sample_record 21 msisdn1 22 (VInt 1001) 1;
                          sample_record 25 msisdn1 20 (VInt 1002) 2] |}).
  - vm_compute. reflexivity.
  - vm_compute. reflexivity.
Defined.

(** C6, as the code has it: on a valid file, every row that is the last one
    between its two accounts has an edge between them, and that edge carries
    exactly the eight named attributes, each with the value of that row. *)
Theorem build_nx_edge_attributes self w t :
  fs w !! file_name self = Some (Csv t) ->
  valid_file t = true ->
  exists data g,
    read_csv self w = (inr data, w) /\
    build_nx self w = (inr g, w) /\
    forall row,
      last_of_pair data row ->
      exists u v d p,
        (u, v, d) ∈ edges g /\ endpoints_of data row = Some p /\ same_edge (u, v) p /\
        (forall name, name ∈ edge_attr -> is_Some (cell data row name)) /\
        (forall name,
           d !! name = if decide (name ∈ edge_attr) then cell data row name else None).
Proof.
  intros Hfs Hvalid. graph_of_valid_file t Hfs Hvalid.
  exists data, g. split_and!; [done..|].
  intros row. by apply edge_of_last_row.
Qed.

Lemma build_nx_edge_attributes_witness :
  exists data g,
    read_csv sample_self two_credits = (inr data, two_credits) /\
    build_nx sample_self two_credits = (inr g, two_credits) /\
    forall row,
      last_of_pair data row ->
      exists u v d p,
        (u, v, d) ∈ edges g /\ endpoints_of data row = Some p /\ same_edge (u, v) p /\
        (forall name, name ∈ edge_attr -> is_Some (cell data row name)) /\
        (forall name,
           d !! name = if decide (name ∈ edge_attr) then cell data row name else None).
Proof.
  apply (build_nx_edge_attributes sample_self two_credits
           {| header := sample_header;
              records := [sample_record 21 msisdn1 22 (VInt 1001) 1;
                          sample_record 25 msisdn1 20 (VInt 1002) 2] |}).
  - vm_compute. reflexivity.
  - vm_compute. reflexivity.
Defined.

(** C6 fails as stated: of two rows between the same two accounts, the first
    leaves no attribute on the edge; the edge has the transaction id of the
    second. *)
Lemma build_nx_edge_attributes_counterexample :
  exists d,
    read_csv sample_self same_pair_twice =
      (inr (table_of same_pair_twice), same_pair_twice) /\
    build_nx sample_self same_pair_twice =
      (inr (graph_of same_pair_twice), same_pair_twice) /\
    values (table_of same_pair_twice) !! 0%nat = Some (loaded_row same_pair_twice 0) /\
    endpoints_of (table_of same_pair_twice) (loaded_row same_pair_twice 0)
      = Some (msisdn1, VInt 1001) /\
    cell (table_of same_pair_twice) (loaded_row same_pair_twice 0) "TRANSACTION ID"
      = Some (VInt 1) /\
    edges (graph_of same_pair_twice) = [(msisdn1, VInt 1001, d)] /\
    d !! "TRANSACTION ID" = Some (VInt 2).
Proof.
  eexists. split_and!; vm_compute; reflexivity.
Qed.

(** ** The renderer *)

(** C4, as the code has it: a node whose identifier prints in fewer than 12
    characters is in category 0; any other node is in category 1 when it is
    the reset account of a row that is the last one between its two
    accounts, and in category 2 otherwise.  The category is [node_color] of
    the node and of the reset accounts the edges carry. *)
Theorem build_bokeh_node_category self w t :
  fs w !! file_name self = Some (Csv t) ->
  valid_file t = true ->
  exists data g r,
    read_csv self w = (inr data, w) /\
    build_nx self w = (inr g, w) /\
    renderers (bokeh_plot g) = [r] /\
    index (node_source r) = nodes g /\
    node_colors (node_source r) = node_color (rmsisdn (edge_source r)) <$> nodes g /\
    (forall i,
       Some i ∈ rmsisdn (edge_source r) <->
       exists row, last_of_pair data row /\ cell data row "PIN RESET MSISDN" = Some i) /\
    (forall i,
       let c := node_color (rmsisdn (edge_source r)) i in
       ((String.length (py_str i) < 12)%nat -> c = 0) /\
       ((12 <= String.length (py_str i))%nat ->
        (exists row, last_of_pair data row /\ cell data row "PIN RESET MSISDN" = Some i) ->
        c = 1) /\
       ((12 <= String.length (py_str i))%nat ->
        ~ (exists row, last_of_pair data row /\ cell data row "PIN RESET MSISDN" = Some i) ->
        c = 2)).
Proof.
  intros Hfs Hvalid. graph_of_valid_file t Hfs Hvalid.
  pose proof (edge_reset_accounts _ _ Hinv HF) as Hreset.
  eexists data, g, _.
  split_and!; [done | done | reflexivity | reflexivity | reflexivity | exact Hreset |].
  intros i. simpl. unfold node_color. split_and!.
  - intros Hlen12. apply Nat.ltb_lt in Hlen12. by rewrite Hlen12.
  - intros Hlen12 Hrow. apply Nat.ltb_ge in Hlen12. rewrite Hlen12.
    rewrite decide_True; [done|]. by apply Hreset.
  - intros Hlen12 Hrow. apply Nat.ltb_ge in Hlen12. rewrite Hlen12.
    rewrite decide_False; [done|]. by rewrite Hreset.
Qed.

Lemma build_bokeh_node_category_witness :
  exists data g r,
    read_csv sample_self two_credits = (inr data, two_credits) /\
    build_nx sample_self two_credits = (inr g, two_credits) /\
    renderers (bokeh_plot g) = [r] /\
    index (node_source r) = nodes g /\
    node_colors (node_source r) = node_color (rmsisdn (edge_source r)) <$> nodes g /\
    (forall i,
       Some i ∈ rmsisdn (edge_source r) <->
       exists row, last_of_pair data row /\ cell data row "PIN RESET MSISDN" = Some i) /\
    (forall i,
       let c := node_color (rmsisdn (edge_source r)) i in
       ((String.length (py_str i) < 12)%nat -> c = 0) /\
       ((12 <= String.length (py_str i))%nat ->
        (exists row, last_of_pair data row /\ cell data row "PIN RESET MSISDN" = Some i) ->
        c = 1) /\
       ((12 <= String.length (py_str i))%nat ->
        ~ (exists row, last_of_pair data row /\ cell data row "PIN RESET MSISDN" = Some i) ->
        c = 2)).
Proof.
  apply (build_bokeh_node_category sample_self two_credits
           {| header := sample_header;
              records := [sample_record 21 msisdn1 22 (VInt 1001) 1;
                          sample_record 25 msisdn1 20 (VInt 1002) 2] |}).
  - vm_compute. reflexivity.
  - vm_compute. reflexivity.
Defined.

(** C4 fails as stated: when a transaction is followed by its return, the
    first reset account is twelve characters long and is a reset account of
    the data, yet it falls in category 2: the single edge carries the reset
    account of the return. *)
Lemma build_bokeh_node_category_counterexample :
  exists r,
    build_nx sample_self there_and_back = (inr (graph_of there_and_back), there_and_back) /\
    read_csv sample_self there_and_back = (inr (table_of there_and_back), there_and_back) /\
    values (table_of there_and_back) !! 0%nat = Some (loaded_row there_and_back 0) /\
    cell (table_of there_and_back) (loaded_row there_and_back 0) "PIN RESET MSISDN"
      = Some msisdn1 /\
    String.length (py_str msisdn1) = 12%nat /\
    renderers (bokeh_plot (graph_of there_and_back)) = [r] /\
    index (node_source r) = [msisdn1; msisdn2] /\
    node_colors (node_source r) = [2; 1].
Proof.
  eexists. split_and!; vm_compute; reflexivity.
Qed.

(** C3, as the code has it: on a valid file every edge has relative-time 1
    or 0; the scale runs from low = 1 to high = 0 over the palette medium sea
    green, firebrick, so that 1 is drawn in medium sea green and 0 in
    firebrick. *)
Theorem build_bokeh_edge_color self w t :
  fs w !! file_name self = Some (Csv t) ->
  valid_file t = true ->
  exists g r,
    build_nx self w = (inr g, w) /\
    renderers (bokeh_plot g) = [r] /\
    line_color (edge_glyph r) =
      {| field_name := "batime"; palette := ["mediumseagreen"; "firebrick"];
         low := 1; high := 0 |} /\
    length (batime (edge_source r)) = length (edges g) /\
    forall k, (k < length (edges g))%nat ->
      (batime (edge_source r) !! k = Some (Some (VInt 1)) /\
       edge_color r k = Some "mediumseagreen") \/
      (batime (edge_source r) !! k = Some (Some (VInt 0)) /\
       edge_color r k = Some "firebrick").
Proof.
  intros Hfs Hvalid. graph_of_valid_file t Hfs Hvalid.
  eexists g, _. split_and!; [done | reflexivity | reflexivity | |].
  - simpl. by rewrite !length_fmap.
  - intros k [[[u v] d] He]%lookup_lt_is_Some.
    destruct (edge_has_last_row _ _ Hinv HF u v d) as (row & p & Hlast & _ & _ & Hattrs).
    { by eapply list_elem_of_lookup_2. }
    assert (Hrow : row ∈ values data).
    { destruct Hlast as (rows1 & rows2 & _ & -> & _). apply elem_of_app. right. left. }
    assert (Hd : d !! "TIME" = cell data row "TIME").
    { rewrite Hattrs, decide_True; [done|]. unfold edge_attr. set_solver. }
    unfold edge_color. simpl. rewrite !list_lookup_fmap, He. simpl. rewrite Hd.
    destruct (HTIME row Hrow) as [-> | ->]; [right | left]; done.
Qed.

Lemma build_bokeh_edge_color_witness :
  exists g r,
    build_nx sample_self two_credits = (inr g, two_credits) /\
    renderers (bokeh_plot g) = [r] /\
    line_color (edge_glyph r) =
      {| field_name := "batime"; palette := ["mediumseagreen"; "firebrick"];
         low := 1; high := 0 |} /\
    length (batime (edge_source r)) = length (edges g) /\
    forall k, (k < length (edges g))%nat ->
      (batime (edge_source r) !! k = Some (Some (VInt 1)) /\
       edge_color r k = Some "mediumseagreen") \/
      (batime (edge_source r) !! k = Some (Some (VInt 0)) /\
       edge_color r k = Some "firebrick").
Proof.
  apply (build_bokeh_edge_color sample_self two_credits
           {| header := sample_header;
              records := [sample_record 21 msisdn1 22 (VInt 1001) 1;
                          sample_record 25 msisdn1 20 (VInt 1002) 2] |}).
  - vm_compute. reflexivity.
  - vm_compute. reflexivity.
Defined.

(** C3 fails as stated: of the two edges of the sample, the one with
    relative-time 0 is drawn in firebrick, the one with relative-time 1 in
    medium sea green. *)
Lemma build_bokeh_edge_color_counterexample :
  exists r,
    build_nx sample_self two_credits = (inr (graph_of two_credits), two_credits) /\
    renderers (bokeh_plot (graph_of two_credits)) = [r] /\
    batime (edge_source r) = [Some (VInt 0); Some (VInt 1)] /\
    edge_color r 0 = Some "firebrick" /\
    edge_color r 1 = Some "mediumseagreen".
Proof.
  eexists. split_and!; vm_compute; reflexivity.
Qed.

(** ** The loader *)

Lemma lex_ltb_irrefl l : lex_ltb l l = false.
Proof. induction l as [|x l IH]; simpl; [done|]. by rewrite Nat.ltb_irrefl. Qed.

Lemma Timestamp_ltb_irrefl d : Timestamp_ltb d d = false.
Proof. apply lex_ltb_irrefl. Qed.

(** C2, as the code has it: on every row of a file the loader accepts,
    relative-time is 0 exactly when the first date is strictly earlier than
    the third selected column's date, and 1 otherwise; in particular it is 1
    when the two dates coincide.  The value is a function of the two dates
    of the row alone. *)
Theorem read_csv_relative_time self w t :
  fs w !! file_name self = Some (Csv t) ->
  loadable t = true ->
  exists data,
    read_csv self w = (inr data, w) /\
    len_index data = length (records t) /\
    forall i r d1 d2,
      records t !! i = Some r ->
      r !! 4%nat = Some (VTime d1) -> r !! 6%nat = Some (VTime d2) ->
      exists row,
        values data !! i = Some row /\
        cell data row "TIME" = Some (VInt (if Timestamp_ltb d1 d2 then 0 else 1)) /\
        (cell data row "TIME" = Some (VInt 0) <-> Timestamp_ltb d1 d2 = true) /\
        (d1 = d2 -> cell data row "TIME" = Some (VInt 1)).
Proof.
  intros Hfs Hload. destruct (read_csv_total _ _ _ Hfs Hload) as [data Hread].
  exists data. split; [done|].
  pose proof Hread as (_ & t' & raw & TIME & Hfs' & Hraw & HT & ->)%read_csv_inr.
  assert (t' = t) as -> by congruence.
  pose proof (pd_read_csv_rectangular _ _ Hraw) as Hrect.
  pose proof (rmap_inr_length _ _ _ HT) as HlenT. rewrite length_seq in HlenT.
  pose proof Hraw as [_ Hrows]%pd_read_csv_inr.
  assert (HN : len_index (setitem raw "TIME" TIME) = length (records t)).
  { rewrite setitem_length by done. unfold len_index. by apply rmap_inr_length in Hrows. }
  split; [done|].
  intros i r d1 d2 Hr H4 H6.
  assert (is_Some (values (setitem raw "TIME" TIME) !! i)) as [row Hrow].
  { apply lookup_lt_is_Some. fold (len_index (setitem raw "TIME" TIME)).
    rewrite HN. by eapply lookup_lt_Some. }
  exists row. split; [done|].
  destruct (setitem_cell _ _ _ _ _ Hrect Hrow) as (v & Hv & ->).
  assert (seq 0 (len_index raw) !! i = Some i) as Hseq.
  { apply lookup_seq. split; [done|]. rewrite <- HlenT. by eapply lookup_lt_Some. }
  destruct (rmap_inr_lookup _ _ _ _ _ HT Hseq) as (v' & Hv' & Hentry).
  assert (v' = v) as -> by congruence.
  destruct (rmap_inr_lookup _ _ _ _ _ Hrows Hr) as (rr & Hrr & Htc).
  apply take_cols_inr in Htc as [_ Htc].
  assert (TIME_entry raw i = inr (VInt (if Timestamp_ltb d1 d2 then 0 else 1))) as Hcalc.
  { unfold TIME_entry, iat. rewrite Hrr. simpl.
    rewrite (Htc 0%nat 4%nat), H4 by done. simpl.
    rewrite (Htc 2%nat 6%nat), H6 by done. done. }
  assert (v = VInt (if Timestamp_ltb d1 d2 then 0 else 1)) as -> by congruence.
  split_and!; [done | |].
  - destruct (Timestamp_ltb d1 d2); split; congruence.
  - intros ->. by rewrite Timestamp_ltb_irrefl.
Qed.

Lemma read_csv_relative_time_witness :
  exists data,
    read_csv sample_self two_credits = (inr data, two_credits) /\
    len_index data = 2%nat /\
    forall i r d1 d2,
      [sample_record 21 msisdn1 22 (VInt 1001) 1;
       sample_record 25 msisdn1 20 (VInt 1002) 2] !! i = Some r ->
      r !! 4%nat = Some (VTime d1) -> r !! 6%nat = Some (VTime d2) ->
      exists row,
        values data !! i = Some row /\
        cell data row "TIME" = Some (VInt (if Timestamp_ltb d1 d2 then 0 else 1)) /\
        (cell data row "TIME" = Some (VInt 0) <-> Timestamp_ltb d1 d2 = true) /\
        (d1 = d2 -> cell data row "TIME" = Some (VInt 1)).
Proof.
  apply (read_csv_relative_time sample_self two_credits
           {| header := sample_header;
              records := [sample_record 21 msisdn1 22 (VInt 1001) 1;
                          sample_record 25 msisdn1 20 (VInt 1002) 2] |}).
  - vm_compute. reflexivity.
  - vm_compute. reflexivity.
Defined.

(** C2 fails as stated: on a row whose two dates coincide the first date is
    earlier-or-equal, yet relative-time is 1. *)
Lemma read_csv_relative_time_counterexample :
  exists r,
    read_csv sample_self same_day = (inr (table_of same_day), same_day) /\
    fs same_day !! sample_path = Some (Csv {| header := sample_header; records := [r] |}) /\
    loadable {| header := sample_header; records := [r] |} = true /\
    r !! 4%nat = Some (VTime (aug2018 21)) /\
    r !! 6%nat = Some (VTime (aug2018 21)) /\
    Timestamp_leb (aug2018 21) (aug2018 21) = true /\
    values (table_of same_day) !! 0%nat = Some (loaded_row same_day 0) /\
    cell (table_of same_day) (loaded_row same_day 0) "TIME" = Some (VInt 1).
Proof.
  eexists. split_and!; vm_compute; reflexivity.
Qed.

(** ** Errors and the empty table *)

(** C7: when no file is at the path, [build_bokeh] raises
    [FileNotFoundError]; the run prints the loader's message, then the error,
    and ends with every file as it was. *)
Theorem missing_file_not_found path w :
  fs w !! path = None ->
  build_bokeh {| file_name := path |} w =
    (inl (FileNotFoundError path),
     {| stdout := stdout w ++ ["CSV file not found."]; fs := fs w |}) /\
  top_level path w =
    (inr tt,
     {| stdout := (stdout w ++ ["CSV file not found."])
                  ++ ["[Errno 2] No such file or directory: '" +:+ path +:+ "'"];
        fs := fs w |}).
Proof.
  intros H.
  assert (Hb : build_bokeh {| file_name := path |} w =
    (inl (FileNotFoundError path),
     {| stdout := stdout w ++ ["CSV file not found."]; fs := fs w |})).
  { unfold build_bokeh, build_nx, read_csv, try_except, bind, open_read_csv, raise, print.
    simpl. by rewrite H. }
  split; [done|]. unfold top_level, try_except. by rewrite Hb.
Qed.

Lemma missing_file_not_found_witness :
  build_bokeh {| file_name := "nowhere.csv" |} two_credits =
    (inl (FileNotFoundError "nowhere.csv"),
     {| stdout := stdout two_credits ++ ["CSV file not found."]; fs := fs two_credits |}) /\
  top_level "nowhere.csv" two_credits =
    (inr tt,
     {| stdout := (stdout two_credits ++ ["CSV file not found."])
                  ++ ["[Errno 2] No such file or directory: '" +:+ "nowhere.csv" +:+ "'"];
        fs := fs two_credits |}).
Proof.
  apply (missing_file_not_found "nowhere.csv" two_credits).
  vm_compute. reflexivity.
Defined.



(** C10: a valid file with no data row goes through: the loaded table has
    the relative-time column and no row, the graph has no node and no edge,
    nothing is printed, and the document is written. *)
Theorem header_only_pipeline path w t :
  fs w !! path = Some (Csv t) ->
  valid_file t = true ->
  records t = [] ->
  exists data,
    read_csv {| file_name := path |} w = (inr data, w) /\
    "TIME" ∈ columns data /\ values data = [] /\
    build_nx {| file_name := path |} w = (inr empty_graph, w) /\
    nodes empty_graph = [] /\ edges empty_graph = [] /\
    top_level path w =
      (inr tt,
       {| stdout := stdout w;
          fs := <["TZ_SimSwap_Network.html" := Html (bokeh_plot empty_graph)]> (fs w) |}).
Proof.
  intros Hfs [Hload Hnames]%andb_true_iff Hrec.
  destruct (take_cols (header t)) as [|cols] eqn:Hcols; [done|].
  rewrite forallb_forall in Hnames.
  set (raw := {| columns := cols; values := [] |}).
  assert (Hraw : pd_read_csv t = inr raw).
  { unfold pd_read_csv. by rewrite Hcols, Hrec. }
  assert (Hread : read_csv {| file_name := path |} w = (inr (setitem raw "TIME" []), w)).
  { by apply (read_csv_ok _ _ t). }
  assert (Hv : values (setitem raw "TIME" []) = []).
  { unfold setitem. by destruct (index_of "TIME" (columns raw)). }
  assert (Hg : from_pandas_edgelist (setitem raw "TIME" [])
                 "PIN RESET MSISDN" "CREDIT PARTY" edge_attr = inr empty_graph).
  { apply from_pandas_edgelist_empty; [done|].
    intros name Hname%list_elem_of_In%Hnames.
    apply orb_true_iff in Hname as [Hin%bool_decide_eq_true | ->%bool_decide_eq_true].
    - by apply setitem_columns_old.
    - apply setitem_columns. }
  pose proof (build_nx_ok _ _ _ _ Hread Hg) as Hnx.
  exists (setitem raw "TIME" []). split_and!; try done.
  - apply setitem_columns.
  - unfold top_level, try_except, build_bokeh, bind, save. cbv zeta.
    by rewrite Hnx.
Qed.

Lemma header_only_pipeline_witness :
  exists data,
    read_csv {| file_name := sample_path |} header_only = (inr data, header_only) /\
    "TIME" ∈ columns data /\ values data = [] /\
    build_nx {| file_name := sample_path |} header_only = (inr empty_graph, header_only) /\
    nodes empty_graph = [] /\ edges empty_graph = [] /\
    top_level sample_path header_only =
      (inr tt,
       {| stdout := stdout header_only;
          fs := <["TZ_SimSwap_Network.html" := Html (bokeh_plot empty_graph)]>
                  (fs header_only) |}).
Proof.
  apply (header_only_pipeline sample_path header_only
           {| header := sample_header; records := [] |}).
  - vm_compute. reflexivity.
  - vm_compute. reflexivity.
  - reflexivity.
Defined.

(** * Further properties of the module *)

(** ** What a run leaves behind *)

Ltac frame_done :=
  simpl in *;
  split; [done | first [done | reflexivity | by apply prefix_app_r
                       | etrans; [eassumption | by apply prefix_app_r]]].

Lemma read_csv_frame self w :
  fs (read_csv self w).2 = fs w /\ stdout w `prefix_of` stdout (read_csv self w).2.
Proof.
  unfold read_csv, try_except, bind, open_read_csv, lift, ret, raise, print.
  destruct (fs w !! file_name self) as [[t|doc]|]; simpl; [| frame_done..].
  destruct (pd_read_csv t) as [e|raw]; simpl; [destruct e; frame_done|].
  destruct (rmap (TIME_entry raw) (seq 0 (len_index raw))) as [e|TIME]; simpl;
    [destruct e; frame_done | frame_done].
Qed.

Lemma build_nx_frame self w :
  fs (build_nx self w).2 = fs w /\ stdout w `prefix_of` stdout (build_nx self w).2.
Proof.
  pose proof (read_csv_frame self w) as [Hfs Hout].
  unfold build_nx, try_except, bind, lift, ret, raise, print.
  destruct (read_csv self w) as [[e|data] w1]; simpl in *.
  - destruct e; frame_done.
  - destruct (from_pandas_edgelist data _ _ _) as [e|g]; simpl; [|frame_done].
    destruct e; frame_done.
Qed.

(** X1: whatever the files hold, a run touches no file but
    [TZ_SimSwap_Network.html], only adds lines to the console, and leaves
    every file as it was when the graph builder raises. *)
Theorem top_level_frame path w :
  (forall p, p <> "TZ_SimSwap_Network.html" ->
     fs (top_level path w).2 !! p = fs w !! p) /\
  stdout w `prefix_of` stdout (top_level path w).2 /\
  (forall e, (build_nx {| file_name := path |} w).1 = inl e ->
     fs (top_level path w).2 = fs w).
Proof.
  pose proof (build_nx_frame {| file_name := path |} w) as [Hfs Hout].
  unfold top_level, try_except, build_bokeh, bind, save, raise, print. cbv zeta.
  destruct (build_nx {| file_name := path |} w) as [[e|g] w1]; simpl in *.
  - assert (Hout' : forall line, stdout w `prefix_of` stdout w1 ++ [line]).
    { intros line. etrans; [done | by apply prefix_app_r]. }
    destruct e; simpl; rewrite ?Hfs; auto.
  - split_and!; [|done|done].
    intros p Hp. by rewrite lookup_insert_ne, Hfs.
Qed.






(** ** Cells that do not compare *)

Lemma rmap_inl {A B} (f : A -> result B) (l : list A) e :
  rmap f l = inl e -> exists x, x ∈ l /\ f x = inl e.
Proof.
  induction l as [|x l IH]; simpl; [done|].
  destruct (f x) as [e'|y] eqn:Ex; simpl.
  - intros [= <-]. exists x. split; [left | done].
  - destruct (rmap f l) as [e'|ys]; simpl; [|done].
    intros [= <-]. destruct IH as (x' & Hx' & Hf); [done|].
    exists x'. split; [by right | done].
Qed.

Lemma py_lt_inl d0 d2 e : py_lt d0 d2 = inl e -> e = TypeError.
Proof. destruct d0, d2; simpl; congruence. Qed.

(** The loader returns exactly on the files [loadable] accepts. *)
Lemma read_ok_loadable t raw TIME :
  pd_read_csv t = inr raw ->
  rmap (TIME_entry raw) (seq 0 (len_index raw)) = inr TIME ->
  loadable t = true.
Proof.
  intros [Hcols Hrows]%pd_read_csv_inr HT. unfold loadable.
  rewrite Hcols. simpl. apply forallb_forall.
  intros r [i Hr]%list_elem_of_In%list_elem_of_lookup.
  destruct (rmap_inr_lookup _ _ _ _ _ Hrows Hr) as (rr & Hrr & Htc).
  assert (seq 0 (len_index raw) !! i = Some i) as Hseq.
  { apply lookup_seq. split; [done|]. by eapply lookup_lt_Some. }
  destruct (rmap_inr_lookup _ _ _ _ _ HT Hseq) as (v & _ & Hentry).
  apply TIME_entry_inr in Hentry as (d0 & d2 & c & H0 & H2 & Hc & _).
  unfold iat in H0, H2. rewrite Hrr in H0, H2. simpl in H0, H2.
  apply of_option_inr in H0, H2.
  unfold row_loadable. by rewrite Htc, H0, H2, Hc.
Qed.

Lemma TIME_entry_inl raw i e :
  rectangular raw -> length (columns raw) = 9%nat -> (i < len_index raw)%nat ->
  TIME_entry raw i = inl e -> e = TypeError.
Proof.
  intros Hrect Hcols Hi. destruct (lookup_lt_is_Some_2 (values raw) i Hi) as [rr Hrr].
  assert (Hlen : length rr = 9%nat).
  { rewrite <- Hcols. apply Hrect. by eapply list_elem_of_lookup_2. }
  destruct (lookup_lt_is_Some_2 rr 0) as [d0 H0]; [lia|].
  destruct (lookup_lt_is_Some_2 rr 2) as [d2 H2]; [lia|].
  unfold TIME_entry, iat. rewrite Hrr. simpl. rewrite H0, H2. simpl.
  destruct (py_lt d0 d2) as [e'|c] eqn:Ec; simpl; [|done].
  intros [= <-]. by eapply py_lt_inl.
Qed.

(** X4: when the file has every selected position but, on some row, the
    first and the third selected cell do not compare (a date beside a
    string, say), the comparison raises [TypeError]; the run prints the
    usage line, ends with that error, and leaves every file as it was. *)
Theorem top_level_type_error path w t raw :
  fs w !! path = Some (Csv t) ->
  pd_read_csv t = inr raw ->
  loadable t = false ->
  read_csv {| file_name := path |} w = (inl TypeError, w) /\
  top_level path w =
    (inl TypeError,
     {| stdout := stdout w ++ ["SimSwap() must take csv file path as a string"];
        fs := fs w |}).
Proof.
  intros Hfs Hraw Hload.
  assert (HT : rmap (TIME_entry raw) (seq 0 (len_index raw)) = inl TypeError).
  { destruct (rmap (TIME_entry raw) (seq 0 (len_index raw))) as [e|TIME] eqn:E.
    - apply rmap_inl in E as (i & [_ Hi]%elem_of_seq & He). f_equal.
      eapply TIME_entry_inl; [by eapply pd_read_csv_rectangular | | exact Hi | exact He].
      apply pd_read_csv_inr in Hraw as [Hc _]. by apply take_cols_inr in Hc as [? _].
    - rewrite (read_ok_loadable _ _ _ Hraw E) in Hload. done. }
  assert (Hread : read_csv {| file_name := path |} w = (inl TypeError, w)).
  { unfold read_csv, try_except, bind, open_read_csv, lift. simpl.
    by rewrite Hfs, Hraw, HT. }
  split; [done|].
  assert (Hnx : build_nx {| file_name := path |} w = (inl TypeError, w)).
  { unfold build_nx, try_except, bind. by rewrite Hread. }
  unfold top_level, try_except, build_bokeh, bind, raise, print. cbv zeta.
  by rewrite Hnx.
Qed.

Lemma top_level_type_error_witness :
  read_csv {| file_name := sample_path |} unparsed_date = (inl TypeError, unparsed_date) /\
  top_level sample_path unparsed_date =
    (inl TypeError,
     {| stdout := stdout unparsed_date
                  ++ ["SimSwap() must take csv file path as a string"];
        fs := fs unparsed_date |}).
Proof.
  apply (top_level_type_error sample_path unparsed_date
           {| header := sample_header;
              records := [<[6%nat := VStr "unknown"]>
                            (sample_record 21 msisdn1 22 (VInt 1001) 1)] |}
           (mkDataFrame
              ["PIN RESET TIME"; "PIN RESET MSISDN"; "SIM SWAP TIME"; "DEBIT PARTY";
               "CREDIT PARTY"; "CREDIT PARTY SHORTCODE/MSISDN"; "TRANSACTION TIME";
               "TRANSACTION ID"; "TRANSACTION AMOUNT"]
              [[VTime (aug2018 21); msisdn1; VStr "unknown"; VStr "debit name";
                VInt 1001; VStr "shortcode"; VStr "2018-08-28 10:00:00"; VInt 1;
                VInt 5000]])).
  - vm_compute. reflexivity.
  - vm_compute. reflexivity.
  - vm_compute. reflexivity.
Defined.

(** ** The layout of the loaded table *)

Lemma TIME_entry_binary raw i v :
  TIME_entry raw i = inr v -> v = VInt 0 \/ v = VInt 1.
Proof. intros (d0 & d2 & [] & _ & _ & _ & ->)%TIME_entry_inr; auto. Qed.

(** X5: the loaded table of a file the loader accepts, no selected column
    of which is called [TIME], has the nine selected columns in file order
    followed by [TIME]; each of its rows is the nine selected cells of the
    file's row, unchanged, followed by a relative-time of 0 or 1. *)
Theorem read_csv_layout self w t cols :
  fs w !! file_name self = Some (Csv t) ->
  loadable t = true ->
  take_cols (header t) = inr cols ->
  "TIME" ∉ cols ->
  exists data,
    read_csv self w = (inr data, w) /\
    columns data = cols ++ ["TIME"] /\
    length (columns data) = 10%nat /\
    forall i r, records t !! i = Some r ->
      exists rr z,
        take_cols r = inr rr /\ (z = 0 \/ z = 1) /\
        values data !! i = Some (rr ++ [VInt z]).
Proof.
  intros Hfs Hload Hcols Hnot.
  destruct (read_csv_total _ _ _ Hfs Hload) as [data Hread]. exists data.
  pose proof Hread as (_ & t' & raw & TIME & Hfs' & Hraw & HT & ->)%read_csv_inr.
  assert (t' = t) as -> by congruence.
  pose proof Hraw as [Hc Hrows]%pd_read_csv_inr.
  assert (columns raw = cols) as Hcr by congruence.
  assert (Hidx : index_of "TIME" (columns raw) = None).
  { apply index_of_None. by rewrite Hcr. }
  split; [done|].
  assert (Hset : setitem raw "TIME" TIME =
    {| columns := columns raw ++ ["TIME"];
       values := zip_with (fun row v => row ++ [v]) (values raw) TIME |}).
  { unfold setitem. by rewrite Hidx. }
  rewrite Hset. simpl. split_and!; [by rewrite Hcr | |].
  { rewrite length_app, Hcr. apply take_cols_inr in Hcols as [-> _]. done. }
  intros i r Hr.
  destruct (rmap_inr_lookup _ _ _ _ _ Hrows Hr) as (rr & Hrr & Htc).
  assert (seq 0 (len_index raw) !! i = Some i) as Hseq.
  { apply lookup_seq. split; [done|]. by eapply lookup_lt_Some. }
  destruct (rmap_inr_lookup _ _ _ _ _ HT Hseq) as (v & Hv & Hentry).
  apply TIME_entry_binary in Hentry.
  assert (exists z, v = VInt z /\ (z = 0 \/ z = 1)) as (z & -> & Hz).
  { destruct Hentry as [-> | ->]; eauto. }
  exists rr, z. split_and!; [done..|].
  apply lookup_zip_with_Some. eauto.
Qed.

Lemma read_csv_layout_witness :
  exists data,
    read_csv sample_self two_credits = (inr data, two_credits) /\
    columns data =
      ["PIN RESET TIME"; "PIN RESET MSISDN"; "SIM SWAP TIME"; "DEBIT PARTY";
       "CREDIT PARTY"; "CREDIT PARTY SHORTCODE/MSISDN"; "TRANSACTION TIME";
       "TRANSACTION ID"; "TRANSACTION AMOUNT"] ++ ["TIME"] /\
    length (columns data) = 10%nat /\
    forall i r,
      [sample_record 21 msisdn1 22 (VInt 1001) 1;
       sample_record 25 msisdn1 20 (VInt 1002) 2] !! i = Some r ->
      exists rr z,
        take_cols r = inr rr /\ (z = 0 \/ z = 1) /\
        values data !! i = Some (rr ++ [VInt z]).
Proof.
  apply (read_csv_layout sample_self two_credits
           {| header := sample_header;
              records := [sample_record 21 msisdn1 22 (VInt 1001) 1;
                          sample_record 25 msisdn1 20 (VInt 1002) 2] |}).
  - vm_compute. reflexivity.
  - vm_compute. reflexivity.
  - vm_compute. reflexivity.
  - apply index_of_None. vm_compute. reflexivity.
Defined.

(** X6: when a selected column of the file is already called [TIME], the
    loader adds no column: the table keeps its nine columns, and on every
    row the cell of that column is replaced by the relative-time, the other
    cells being those of the file. *)
Theorem read_csv_TIME_overwritten self w t cols j :
  fs w !! file_name self = Some (Csv t) ->
  loadable t = true ->
  take_cols (header t) = inr cols ->
  index_of "TIME" cols = Some j ->
  exists data,
    read_csv self w = (inr data, w) /\
    columns data = cols /\
    forall i r, records t !! i = Some r ->
      exists rr z,
        take_cols r = inr rr /\ (z = 0 \/ z = 1) /\
        values data !! i = Some (<[j := VInt z]> rr) /\
        <[j := VInt z]> rr !! j = Some (VInt z).
Proof.
  intros Hfs Hload Hcols Hj.
  destruct (read_csv_total _ _ _ Hfs Hload) as [data Hread]. exists data.
  pose proof Hread as (_ & t' & raw & TIME & Hfs' & Hraw & HT & ->)%read_csv_inr.
  assert (t' = t) as -> by congruence.
  pose proof Hraw as [Hc Hrows]%pd_read_csv_inr.
  assert (columns raw = cols) as Hcr by congruence.
  split; [done|].
  assert (Hset : setitem raw "TIME" TIME =
    {| columns := columns raw;
       values := zip_with (fun row v => <[j := v]> row) (values raw) TIME |}).
  { unfold setitem. by rewrite Hcr, Hj. }
  rewrite Hset. simpl. split; [done|].
  intros i r Hr.
  destruct (rmap_inr_lookup _ _ _ _ _ Hrows Hr) as (rr & Hrr & Htc).
  assert (seq 0 (len_index raw) !! i = Some i) as Hseq.
  { apply lookup_seq. split; [done|]. by eapply lookup_lt_Some. }
  destruct (rmap_inr_lookup _ _ _ _ _ HT Hseq) as (v & Hv & Hentry).
  apply TIME_entry_binary in Hentry.
  assert (exists z, v = VInt z /\ (z = 0 \/ z = 1)) as (z & -> & Hz).
  { destruct Hentry as [-> | ->]; eauto. }
  exists rr, z. split_and!; [done..| |].
  - apply lookup_zip_with_Some. eauto.
  - apply list_lookup_insert_eq.
    pose proof Htc as [-> _]%take_cols_inr.
    apply index_of_lt in Hj. by apply take_cols_inr in Hcols as [<- _].
Qed.

Lemma read_csv_TIME_overwritten_witness :
  exists data,
    read_csv sample_self with_TIME_column = (inr data, with_TIME_column) /\
    columns data =
      ["PIN RESET TIME"; "PIN RESET MSISDN"; "SIM SWAP TIME"; "DEBIT PARTY";
       "CREDIT PARTY"; "CREDIT PARTY SHORTCODE/MSISDN"; "TIME";
       "TRANSACTION ID"; "TRANSACTION AMOUNT"] /\
    forall i r, [sample_record 21 msisdn1 22 (VInt 1001) 1] !! i = Some r ->
      exists rr z,
        take_cols r = inr rr /\ (z = 0 \/ z = 1) /\
        values data !! i = Some (<[6%nat := VInt z]> rr) /\
        <[6%nat := VInt z]> rr !! 6%nat = Some (VInt z).
Proof.
  apply (read_csv_TIME_overwritten sample_self with_TIME_column
           {| header := <[11%nat := "TIME"]> sample_header;
              records := [sample_record 21 msisdn1 22 (VInt 1001) 1] |}).
  - vm_compute. reflexivity.
  - vm_compute. reflexivity.
  - vm_compute. reflexivity.
  - vm_compute. reflexivity.
Defined.

(** ** The order of the nodes *)

Lemma add_node_keys u a : dict_keys (add_node_if_new u a) = add_new u (dict_keys a).
Proof.
  unfold add_node_if_new, add_new. destruct (dict_get u a) eqn:E.
  - rewrite decide_True; [done|]. apply dict_get_keys. eauto.
  - rewrite dict_keys_set, E, decide_False; [done|]. by apply dict_get_None_keys.
Qed.

Lemma adj_set_keys u v r a a' : adj_set u v r a = inr a' -> dict_keys a' = dict_keys a.
Proof.
  unfold adj_set, dict_getitem. intros H. inv_result. subst.
  by rewrite dict_keys_set, Hx.
Qed.

Lemma add_request_nodes g q g' :
  add_request g q = inr g' -> nodes g' = add_new q.1.2 (add_new q.1.1 (nodes g)).
Proof.
  destruct q as [[u v] items]. unfold add_request, add_edge, edge_update. simpl.
  intros H. inv_result. subst. unfold nodes. simpl.
  destruct (dict_get v x2) as [r|]; simpl in *; inv_result; subst; simpl;
    rewrite (adj_set_keys _ _ _ _ _ Hx4), (adj_set_keys _ _ _ _ _ Hx3);
    by rewrite !add_node_keys.
Qed.

Lemma rfold_add_request_nodes g0 reqs g :
  rfold add_request g0 reqs = inr g ->
  nodes g = foldl (fun acc q => add_new q.1.2 (add_new q.1.1 acc)) (nodes g0) reqs.
Proof.
  revert g0. induction reqs as [|q reqs IH]; intros g0 H; simpl in *.
  - by inv_result; subst.
  - inv_result. rewrite (IH _ H). by rewrite (add_request_nodes _ _ _ Hx).
Qed.

Lemma from_pandas_edgelist_rfold data g :
  rectangular data ->
  from_pandas_edgelist data "PIN RESET MSISDN" "CREDIT PARTY" edge_attr = inr g ->
  rfold add_request empty_graph (requests data) = inr g.
Proof.
  intros Hrect H. unfold from_pandas_edgelist in H. inv_result.
  destruct (rfold_add_row data _ _ _ (values data) Hx Hx0 Hx1 Hrect) as [_ Hfold].
  by rewrite Hfold in H.
Qed.

(** X7: on a valid file the nodes of the graph, which are the node column of
    the document, are listed without repeats in the order in which the
    accounts first appear in the rows, the reset account of a row before its
    credited account. *)
Theorem build_nx_node_order self w t :
  fs w !! file_name self = Some (Csv t) ->
  valid_file t = true ->
  exists data g r,
    read_csv self w = (inr data, w) /\
    build_nx self w = (inr g, w) /\
    renderers (bokeh_plot g) = [r] /\
    index (node_source r) = nodes g /\
    nodes g = first_appearances (endpoints data) /\
    NoDup (nodes g).
Proof.
  intros Hfs Hvalid. graph_of_valid_file t Hfs Hvalid.
  eexists data, g, _. split_and!; [done | done | reflexivity | reflexivity | |].
  - pose proof Hg as (_ & data' & Hread' & Hfrom)%build_nx_inr.
    assert (data' = data) as -> by congruence.
    assert (Hrect : rectangular data).
    { pose proof Hread as (_ & t0 & raw & TIME & _ & Hraw & _ & ->)%read_csv_inr.
      apply setitem_rectangular. by eapply pd_read_csv_rectangular. }
    rewrite (rfold_add_request_nodes _ _ _ (from_pandas_edgelist_rfold _ _ Hrect Hfrom)).
    unfold first_appearances. rewrite (requests_endpoints _ HF).
    change (nodes empty_graph) with (@nil value).
    generalize (@nil value). generalize (requests data). intros reqs.
    induction reqs as [|q reqs IH]; intros acc; [done|]. csimpl. apply IH.
  - apply (inv_wf _ _ Hinv).
Qed.

Lemma build_nx_node_order_witness :
  exists data g r,
    read_csv sample_self two_credits = (inr data, two_credits) /\
    build_nx sample_self two_credits = (inr g, two_credits) /\
    renderers (bokeh_plot g) = [r] /\
    index (node_source r) = nodes g /\
    nodes g = first_appearances (endpoints data) /\
    NoDup (nodes g).
Proof.
  apply (build_nx_node_order sample_self two_credits
           {| header := sample_header;
              records := [sample_record 21 msisdn1 22 (VInt 1001) 1;
                          sample_record 25 msisdn1 20 (VInt 1002) 2] |}).
  - vm_compute. reflexivity.
  - vm_compute. reflexivity.
Defined.

(** ** Edges and rows *)

(** X8: on a valid file no undirected pair of accounts is listed twice among
    the edges; every listed edge joins the two accounts of some row, and the
    two accounts of every row are joined by a listed edge (a row whose two
    accounts coincide giving a loop on that account). *)
Theorem build_nx_edges_rows self w t :
  fs w !! file_name self = Some (Csv t) ->
  valid_file t = true ->
  exists data g,
    read_csv self w = (inr data, w) /\
    build_nx self w = (inr g, w) /\
    NoDupA same_edge ((fun e => e.1) <$> edges g) /\
    (forall u v d, (u, v, d) ∈ edges g ->
       exists row p, row ∈ values data /\ endpoints_of data row = Some p /\
                     same_edge (u, v) p) /\
    (forall row, row ∈ values data ->
       exists p u v d, endpoints_of data row = Some p /\
                       (u, v, d) ∈ edges g /\ same_edge (u, v) p) /\
    (forall row x, row ∈ values data -> endpoints_of data row = Some (x, x) ->
       exists d, (x, x, d) ∈ edges g).
Proof.
  intros Hfs Hvalid. graph_of_valid_file t Hfs Hvalid.
  assert (Hrows : forall row, row ∈ values data ->
     exists p u v d, endpoints_of data row = Some p /\
                     (u, v, d) ∈ edges g /\ same_edge (u, v) p).
  { intros row [i Hi]%list_elem_of_lookup.
    destruct (Forall2_lookup_l _ _ _ _ _ HF Hi) as (q & Hq & Hrq).
    apply row_request_Some in Hrq as [Hp _].
    destruct (graph_edges_complete _ _ Hinv q) as (u & v & He & Hs).
    { by eapply list_elem_of_lookup_2. }
    exists q.1, u, v, (edge_dict (requests data) (u, v)). done. }
  exists data, g. split_and!; [done | done | | | done |].
  - assert (Heq : (fun e => e.1) <$> edges g
                  = (fun e => e.1) <$> edges_from [] (adj g)).
    { unfold edges. rewrite <- list_fmap_compose. apply list_fmap_ext.
      by intros i [[u v] r] _. }
    rewrite Heq. apply (edges_from_NoDupA [] (adj g)), Hinv.
  - intros u v d (row & p & Hlast & Hp & Hs & _)%(edge_has_last_row _ _ Hinv HF).
    exists row, p. split_and!; [|done..].
    destruct Hlast as (rows1 & rows2 & _ & -> & _). apply elem_of_app. right. left.
  - intros row x Hrow Hp.
    destruct (Hrows row Hrow) as (p & u & v & d & Hp' & He & Hs).
    assert (p = (x, x)) as -> by congruence.
    apply same_edge_pair in Hs as [[-> ->]|[-> ->]]; eauto.
Qed.

Lemma build_nx_edges_rows_witness :
  exists data g,
    read_csv sample_self two_credits = (inr data, two_credits) /\
    build_nx sample_self two_credits = (inr g, two_credits) /\
    NoDupA same_edge ((fun e => e.1) <$> edges g) /\
    (forall u v d, (u, v, d) ∈ edges g ->
       exists row p, row ∈ values data /\ endpoints_of data row = Some p /\
                     same_edge (u, v) p) /\
    (forall row, row ∈ values data ->
       exists p u v d, endpoints_of data row = Some p /\
                       (u, v, d) ∈ edges g /\ same_edge (u, v) p) /\
    (forall row x, row ∈ values data -> endpoints_of data row = Some (x, x) ->
       exists d, (x, x, d) ∈ edges g).
Proof.
  apply (build_nx_edges_rows sample_self two_credits
           {| header := sample_header;
              records := [sample_record 21 msisdn1 22 (VInt 1001) 1;
                          sample_record 25 msisdn1 20 (VInt 1002) 2] |}).
  - vm_compute. reflexivity.
  - vm_compute. reflexivity.
Defined.

Lemma last_of_pair_elem data row : last_of_pair data row -> row ∈ values data.
Proof. intros (rows1 & rows2 & _ & -> & _). apply elem_of_app. right. left. Qed.

(** ** The columns behind the tooltip *)

(** X9: on a valid file the seven columns of the edge source have one entry
    per edge; entry [k] of [start] and [end] holds the two accounts of edge
    [k], and the four columns the hover tooltip shows hold, none of them
    missing, the reset account, the debit name, the credited account and its
    shortcode of the last row between these two accounts. *)
Theorem build_bokeh_hover_fields self w t :
  fs w !! file_name self = Some (Csv t) ->
  valid_file t = true ->
  exists data g r,
    read_csv self w = (inr data, w) /\
    build_nx self w = (inr g, w) /\
    renderers (bokeh_plot g) = [r] /\
    HoverTool [("Reset No.", "@rmsisdn"); ("Reset Name", "@rname");
               ("Credit No.", "@crmsisdn"); ("Creditor Name", "@crname")]
      ∈ tools (bokeh_plot g) /\
    (length (start (edge_source r)) = length (edges g) /\
     length (end_ (edge_source r)) = length (edges g) /\
     length (rmsisdn (edge_source r)) = length (edges g) /\
     length (rname (edge_source r)) = length (edges g) /\
     length (crmsisdn (edge_source r)) = length (edges g) /\
     length (crname (edge_source r)) = length (edges g) /\
     length (batime (edge_source r)) = length (edges g)) /\
    forall k u v d, edges g !! k = Some (u, v, d) ->
      start (edge_source r) !! k = Some u /\
      end_ (edge_source r) !! k = Some v /\
      exists row reset debit credit short,
        last_of_pair data row /\ same_edge (u, v) (reset, credit) /\
        cell data row "PIN RESET MSISDN" = Some reset /\
        cell data row "DEBIT PARTY" = Some debit /\
        cell data row "CREDIT PARTY" = Some credit /\
        cell data row "CREDIT PARTY SHORTCODE/MSISDN" = Some short /\
        rmsisdn (edge_source r) !! k = Some (Some reset) /\
        rname (edge_source r) !! k = Some (Some debit) /\
        crmsisdn (edge_source r) !! k = Some (Some credit) /\
        crname (edge_source r) !! k = Some (Some short).
Proof.
  intros Hfs Hvalid. graph_of_valid_file t Hfs Hvalid.
  eexists data, g, _.
  split_and!; [done | done | reflexivity | left | simpl; by rewrite !length_fmap.. |].
  intros k u v d He. simpl. rewrite !list_lookup_fmap, He. simpl.
  split_and!; [done..|].
  destruct (edge_has_last_row _ _ Hinv HF u v d) as (row & [reset credit] & Hlast & Hp & Hs & Hattrs).
  { by eapply list_elem_of_lookup_2. }
  destruct (edge_of_last_row _ _ Hinv HF _ Hlast) as (_ & _ & _ & _ & _ & _ & _ & Hsome & _).
  apply endpoints_of_Some in Hp as [Hreset Hcredit]. simpl in *.
  destruct (Hsome "DEBIT PARTY") as [debit Hdebit]; [unfold edge_attr; set_solver|].
  destruct (Hsome "CREDIT PARTY SHORTCODE/MSISDN") as [short Hshort];
    [unfold edge_attr; set_solver|].
  exists row, reset, debit, credit, short.
  rewrite !Hattrs.
  rewrite !decide_True by (unfold edge_attr; set_solver).
  rewrite Hreset, Hdebit, Hcredit, Hshort. done.
Qed.

Lemma build_bokeh_hover_fields_witness :
  exists data g r,
    read_csv sample_self two_credits = (inr data, two_credits) /\
    build_nx sample_self two_credits = (inr g, two_credits) /\
    renderers (bokeh_plot g) = [r] /\
    HoverTool [("Reset No.", "@rmsisdn"); ("Reset Name", "@rname");
               ("Credit No.", "@crmsisdn"); ("Creditor Name", "@crname")]
      ∈ tools (bokeh_plot g) /\
    (length (start (edge_source r)) = length (edges g) /\
     length (end_ (edge_source r)) = length (edges g) /\
     length (rmsisdn (edge_source r)) = length (edges g) /\
     length (rname (edge_source r)) = length (edges g) /\
     length (crmsisdn (edge_source r)) = length (edges g) /\
     length (crname (edge_source r)) = length (edges g) /\
     length (batime (edge_source r)) = length (edges g)) /\
    forall k u v d, edges g !! k = Some (u, v, d) ->
      start (edge_source r) !! k = Some u /\
      end_ (edge_source r) !! k = Some v /\
      exists row reset debit credit short,
        last_of_pair data row /\ same_edge (u, v) (reset, credit) /\
        cell data row "PIN RESET MSISDN" = Some reset /\
        cell data row "DEBIT PARTY" = Some debit /\
        cell data row "CREDIT PARTY" = Some credit /\
        cell data row "CREDIT PARTY SHORTCODE/MSISDN" = Some short /\
        rmsisdn (edge_source r) !! k = Some (Some reset) /\
        rname (edge_source r) !! k = Some (Some debit) /\
        crmsisdn (edge_source r) !! k = Some (Some credit) /\
        crname (edge_source r) !! k = Some (Some short).
Proof.
  apply (build_bokeh_hover_fields sample_self two_credits
           {| header := sample_header;
              records := [sample_record 21 msisdn1 22 (VInt 1001) 1;
                          sample_record 25 msisdn1 20 (VInt 1002) 2] |}).
  - vm_compute. reflexivity.
  - vm_compute. reflexivity.
Defined.

(** ** The colours of the nodes *)

(** X10: whatever the graph, every node of the document has category 0, 1
    or 2, and the node scale (low 0, high 2 over three colours) fills it
    gray [#808080], firebrick [#B22222] or light salmon [#FFA07A]
    accordingly. *)
Theorem build_bokeh_node_fill g r k :
  renderers (bokeh_plot g) = [r] ->
  (k < length (nodes g))%nat ->
  fill_color (node_glyph r) =
    {| field_name := "node_colors"; palette := ["#808080"; "#B22222"; "#FFA07A"];
       low := 0; high := 2 |} /\
  ((node_colors (node_source r) !! k = Some 0 /\ node_fill_color r k = Some "#808080") \/
   (node_colors (node_source r) !! k = Some 1 /\ node_fill_color r k = Some "#B22222") \/
   (node_colors (node_source r) !! k = Some 2 /\ node_fill_color r k = Some "#FFA07A")).
Proof.
  intros [= <-] [x Hx]%lookup_lt_is_Some. split; [done|].
  unfold node_fill_color. simpl. rewrite list_lookup_fmap, Hx. simpl.
  unfold node_color. destruct (String.length (py_str x) <? 12)%nat; [by left|].
  case_decide; [right; left | right; right]; done.
Qed.

Lemma build_bokeh_node_fill_witness :
  exists r,
    renderers (bokeh_plot (graph_of two_credits)) = [r] /\
    fill_color (node_glyph r) =
      {| field_name := "node_colors"; palette := ["#808080"; "#B22222"; "#FFA07A"];
         low := 0; high := 2 |} /\
    ((node_colors (node_source r) !! 0%nat = Some 0 /\
      node_fill_color r 0 = Some "#808080") \/
     (node_colors (node_source r) !! 0%nat = Some 1 /\
      node_fill_color r 0 = Some "#B22222") \/
     (node_colors (node_source r) !! 0%nat = Some 2 /\
      node_fill_color r 0 = Some "#FFA07A")).
Proof.
  eexists. split; [reflexivity|].
  apply (build_bokeh_node_fill (graph_of two_credits) _ 0%nat).
  - reflexivity.
  - vm_compute. lia.
Defined.

(** ** Node categories read off the input *)

(** X11: on a valid file, a node whose identifier prints in 12 characters
    or more is in category 2 when it is the reset account of no row, and in
    category 1 when it is the reset account of some row and the credited
    account of none. *)
Theorem build_bokeh_node_category_input self w t :
  fs w !! file_name self = Some (Csv t) ->
  valid_file t = true ->
  exists data g r,
    read_csv self w = (inr data, w) /\
    build_nx self w = (inr g, w) /\
    renderers (bokeh_plot g) = [r] /\
    forall x, (12 <= String.length (py_str x))%nat ->
      ((forall row, row ∈ values data -> cell data row "PIN RESET MSISDN" <> Some x) ->
       node_color (rmsisdn (edge_source r)) x = 2) /\
      ((exists row, row ∈ values data /\ cell data row "PIN RESET MSISDN" = Some x) ->
       (forall row, row ∈ values data -> cell data row "CREDIT PARTY" <> Some x) ->
       node_color (rmsisdn (edge_source r)) x = 1).
Proof.
  intros Hfs Hvalid. graph_of_valid_file t Hfs Hvalid.
  pose proof (edge_reset_accounts _ _ Hinv HF) as Hreset.
  eexists data, g, _. split_and!; [done | done | reflexivity |].
  intros x Hlen12. apply Nat.ltb_ge in Hlen12. simpl. unfold node_color.
  rewrite Hlen12. split.
  - intros Hnever. rewrite decide_False; [done|]. rewrite Hreset.
    intros (row & Hrow%last_of_pair_elem & Hcell). by eapply Hnever.
  - intros (row0 & Hrow0 & Hcell0) Hnever. rewrite decide_True; [done|].
    apply Hreset.
    assert (Hends : forall row, row ∈ values data -> is_Some (endpoints_of data row)).
    { intros row [i Hi]%list_elem_of_lookup.
      destruct (Forall2_lookup_l _ _ _ _ _ HF Hi) as (q & _ & Hq).
      apply row_request_Some in Hq as [Hq _]. eauto. }
    destruct (Hends row0 Hrow0) as [[x' y] Hp0].
    pose proof Hp0 as [Hx' _]%endpoints_of_Some. simpl in Hx'.
    assert (x' = x) as -> by congruence.
    set (P := fun row : list value =>
                exists p, endpoints_of data row = Some p /\ same_edge p (x, y)).
    assert (HPdec : forall row, Decision (P row)).
    { intros row. unfold P. destruct (endpoints_of data row) as [p|].
      - destruct (decide (same_edge p (x, y))); [left; eauto | right].
        intros (p' & [= <-] & ?). done.
      - right. by intros (p' & ? & _). }
    destruct (last_match P (values data) row0 Hrow0) as (rows1 & row1 & rows2 & Hv & HP1 & Hlater).
    { exists (x, y). done. }
    destruct HP1 as (p1 & Hp1 & Hs1).
    assert (Hrow1 : row1 ∈ values data).
    { rewrite Hv. apply elem_of_app. right. left. }
    assert (p1 = (x, y)) as ->.
    { destruct p1 as [a b]. apply same_edge_pair in Hs1 as [[-> ->]|[-> ->]]; [done|].
      apply endpoints_of_Some in Hp1 as [_ Hb]. simpl in Hb.
      by destruct (Hnever row1 Hrow1). }
    exists row1. split.
    + exists rows1, rows2, (x, y). split_and!; [done..|].
      intros row' p' Hrow' Hp' Hs'. apply (Hlater row' Hrow').
      exists p'. split; [done|]. by symmetry.
    + by apply endpoints_of_Some in Hp1 as [? _].
Qed.

Lemma build_bokeh_node_category_input_witness :
  exists data g r,
    read_csv sample_self two_credits = (inr data, two_credits) /\
    build_nx sample_self two_credits = (inr g, two_credits) /\
    renderers (bokeh_plot g) = [r] /\
    forall x, (12 <= String.length (py_str x))%nat ->
      ((forall row, row ∈ values data -> cell data row "PIN RESET MSISDN" <> Some x) ->
       node_color (rmsisdn (edge_source r)) x = 2) /\
      ((exists row, row ∈ values data /\ cell data row "PIN RESET MSISDN" = Some x) ->
       (forall row, row ∈ values data -> cell data row "CREDIT PARTY" <> Some x) ->
       node_color (rmsisdn (edge_source r)) x = 1).
Proof.
  apply (build_bokeh_node_category_input sample_self two_credits
           {| header := sample_header;
              records := [sample_record 21 msisdn1 22 (VInt 1001) 1;
                          sample_record 25 msisdn1 20 (VInt 1002) 2] |}).
  - vm_compute. reflexivity.
  - vm_compute. reflexivity.
Defined.

(** ** Which key is reported *)




(** ** Which end of an edge comes first *)

(** X13: on a valid file, the account in the [start] column of an edge is
    listed among the nodes no later than the account in its [end] column:
    an edge starts at whichever of its two accounts appeared first. *)
Theorem build_bokeh_edge_direction self w t :
  fs w !! file_name self = Some (Csv t) ->
  valid_file t = true ->
  exists g r,
    build_nx self w = (inr g, w) /\
    renderers (bokeh_plot g) = [r] /\
    forall k u v,
      start (edge_source r) !! k = Some u -> end_ (edge_source r) !! k = Some v ->
      exists i j, nodes g !! i = Some u /\ nodes g !! j = Some v /\ (i <= j)%nat.
Proof.
  intros Hfs Hvalid. graph_of_valid_file t Hfs Hvalid.
  eexists g, _. split_and!; [done | reflexivity |].
  intros k u v. simpl. rewrite !list_lookup_fmap.
  destruct (edges g !! k) as [[[u' v'] d]|] eqn:He; simpl; [|done].
  intros [= ->] [= ->].
  assert (Hin : (u, v, d) ∈ edges g) by (by eapply list_elem_of_lookup_2).
  destruct (graph_edges_nodes _ _ Hinv _ _ _ Hin) as [_ Hv].
  apply list_elem_of_fmap in Hin as ([[u' v'] r] & [= -> -> _] & Hfrom).
  apply elem_of_edges_from in Hfrom as (a1 & nbrs & a2 & Ha & _ & _ & Hnot).
  unfold nodes, dict_keys in *. rewrite Ha in *. rewrite fmap_app in *. csimpl in *.
  exists (length (a1.*1)). 
  apply elem_of_app in Hv as [Hv|Hv]; [done|].
  apply list_elem_of_lookup in Hv as [j Hj].
  exists (length (a1.*1) + j)%nat. split_and!.
  - by rewrite lookup_app_r, Nat.sub_diag.
  - rewrite lookup_app_r by lia. by replace (length a1.*1 + j - length a1.*1)%nat with j by lia.
  - lia.
Qed.

Lemma build_bokeh_edge_direction_witness :
  exists g r,
    build_nx sample_self there_and_back = (inr g, there_and_back) /\
    renderers (bokeh_plot g) = [r] /\
    forall k u v,
      start (edge_source r) !! k = Some u -> end_ (edge_source r) !! k = Some v ->
      exists i j, nodes g !! i = Some u /\ nodes g !! j = Some v /\ (i <= j)%nat.
Proof.
  apply (build_bokeh_edge_direction sample_self there_and_back
           {| header := sample_header;
              records := [sample_record 21 msisdn1 22 msisdn2 1;
                          sample_record 25 msisdn2 26 msisdn1 2] |}).
  - vm_compute. reflexivity.
  - vm_compute. reflexivity.
Defined.
